(** * Textify backend: vector cache and RAG answer service

    A shallow embedding of [Backend/vector_cache.py] and
    [Backend/azure_openai_service.py], followed by the properties of the
    specification that concern them.

    Layout: the first half holds the definitions (numbers, strings, the
    answer service, the vector cache, the singleton accessor), the second
    half the lemmas and theorems. *)

From Stdlib Require Import Floats QArith Lqa ZArith Lia Ascii String List.
From stdpp Require Import gmap strings list pretty.

Set Warnings "-inexact-float".
Local Open Scope Z_scope.
Local Open Scope string_scope.

(* ===================================================================== *)
(** * Part I: definitions *)
(* ===================================================================== *)

(** ** Python floats

    The service computes with Python [float]s.  The embedding is written
    once over the operations the source uses and is then read at two
    carriers: [binary64], the IEEE 754 doubles that CPython executes
    (Rocq's primitive floats, same rounding), and [exact], the rationals,
    where the same program text is evaluated without rounding. *)

Class PyFloat (F : Type) : Type := {
  f0_0 : F;                      (* the literal 0.0 *)
  f1_0 : F;                      (* the literal 1.0 *)
  f0_8 : F;                      (* the literal 0.8 *)
  f0_6 : F;                      (* the literal 0.6 *)
  f0_4 : F;                      (* the literal 0.4 *)
  f0_2 : F;                      (* the literal 0.2 *)
  f0_1 : F;                      (* the literal 0.1 *)
  f0_3 : F;                      (* the literal 0.3 *)
  fadd : F -> F -> F;            (* x + y *)
  fmul : F -> F -> F;            (* x * y *)
  fdiv : F -> F -> F;            (* x / y, used only under a guard y > 0 *)
  flt : F -> F -> bool           (* x < y *)
}.

#[export] Instance binary64 : PyFloat float := {|
  f0_0 := 0.0%float;
  f1_0 := 1.0%float;
  f0_8 := 0.8%float;
  f0_6 := 0.6%float;
  f0_4 := 0.4%float;
  f0_2 := 0.2%float;
  f0_1 := 0.1%float;
  f0_3 := 0.3%float;
  fadd := PrimFloat.add;
  fmul := PrimFloat.mul;
  fdiv := PrimFloat.div;
  flt := PrimFloat.ltb
|}.

#[export] Instance exact : PyFloat Q := {|
  f0_0 := 0%Q;
  f1_0 := 1%Q;
  f0_8 := (8 # 10)%Q;
  f0_6 := (6 # 10)%Q;
  f0_4 := (4 # 10)%Q;
  f0_2 := (2 # 10)%Q;
  f0_1 := (1 # 10)%Q;
  f0_3 := (3 # 10)%Q;
  fadd := Qplus;
  fmul := Qmult;
  fdiv := Qdiv;
  flt := fun x y => negb (Qle_bool y x)
|}.

(** Python's built-in [min(a, b)] on two arguments: the first one is kept
    unless the second is strictly smaller. *)
Definition py_min {F} `{PyFloat F} (a b : F) : F :=
  if flt b a then b else a.

(** ** Python strings *)

Definition nl : string := String "010"%char EmptyString.

(** [len(s)] as a Python [int]. *)
Definition len (s : string) : Z := Z.of_nat (String.length s).

(** [sep.join(parts)] *)
Fixpoint join (sep : string) (parts : list string) : string :=
  match parts with
  | [] => ""
  | [p] => p
  | p :: rest => p ++ sep ++ join sep rest
  end.

(** [s[:n]] for a non-negative [n]. *)
Definition slice_to (n : nat) (s : string) : string := String.substring 0 n s.

(** The double-quote character. *)
Definition dq : string := String "034"%char EmptyString.

(** [str.isspace] on one character (code points below 256). *)
Definition isspace (c : ascii) : bool :=
  let n := nat_of_ascii c in
  ((9 <=? n) && (n <=? 13) || (28 <=? n) && (n <=? 32)
   || (n =? 133) || (n =? 160))%nat.

Fixpoint lstrip (s : string) : string :=
  match s with
  | String c rest => if isspace c then lstrip rest else s
  | EmptyString => EmptyString
  end.

Fixpoint rstrip (s : string) : string :=
  match s with
  | String c rest =>
      match rstrip rest with
      | EmptyString => if isspace c then EmptyString else String c EmptyString
      | r => String c r
      end
  | EmptyString => EmptyString
  end.

(** [s.strip()] *)
Definition strip (s : string) : string := rstrip (lstrip s).

(** ** Chunks as the service reads them

    The service indexes every chunk dictionary at the keys ["chunk_id"],
    ["text"] and ["similarity_score"]. *)

Record Chunk (F : Type) : Type := mkChunk {
  chunk_id : string;
  text : string;
  similarity_score : F
}.
Arguments mkChunk {F} _ _ _.
Arguments chunk_id {F} _.
Arguments text {F} _.
Arguments similarity_score {F} _.

(** ** [AzureOpenAIService._build_context] *)

(** The f-string [f"[Context {i + 1}]\n{chunk['text']}\n"]. *)
Definition chunk_text {F} (i : nat) (chunk : Chunk F) : string :=
  "[Context " ++ pretty (i + 1)%nat ++ "]" ++ nl ++ text chunk ++ nl.

(** The [for i, chunk in enumerate(chunks)] loop with its [break]; the
    loop state is [context_parts] and [total_length]. *)
Fixpoint build_context_loop {F} (max_length : Z) (i : nat)
    (chunks : list (Chunk F)) (context_parts : list string)
    (total_length : Z) : list string * Z :=
  match chunks with
  | [] => (context_parts, total_length)
  | chunk :: rest =>
      let ct := chunk_text i chunk in
      if total_length + len ct >? max_length
      then (context_parts, total_length)
      else build_context_loop max_length (S i) rest
             (context_parts ++ [ct]) (total_length + len ct)
  end.

Definition _build_context {F} (chunks : list (Chunk F)) (max_length : Z)
    : string :=
  join nl (fst (build_context_loop max_length 0 chunks [] 0)).

(** The default [max_length: int = 10000]. *)
Definition default_max_length : Z := 10000.

(** Vocabulary for the statements about [_build_context]. *)

(** The sum of the lengths of the parts. *)
Definition total_len (parts : list string) : Z :=
  fold_right (fun p acc => len p + acc) 0 parts.

(** The labelled texts of the chunks at positions [i], [i+1], ... *)
Fixpoint labelled {F} (i : nat) (chunks : list (Chunk F)) : list string :=
  match chunks with
  | [] => []
  | chunk :: rest => chunk_text i chunk :: labelled (S i) rest
  end.

(** [c * n] for a one-character string [c]. *)
Fixpoint repeat_char (c : ascii) (n : nat) : string :=
  match n with
  | O => EmptyString
  | S n' => String c (repeat_char c n')
  end.

(** ** [AzureOpenAIService._estimate_confidence] *)

Section Confidence.
Context {F : Type} `{PyFloat F}.

Definition weights : list F := [f1_0; f0_8; f0_6; f0_4; f0_2].

(** [weights[i] if i < len(weights) else 0.1] *)
Definition weight_at (i : nat) : F :=
  if (i <? length weights)%nat then nth i weights f0_1 else f0_1.

(** The accumulation loop over [enumerate(chunks[:5])]; the loop state is
    [total_score] and [total_weight]. *)
Fixpoint confidence_loop (i : nat) (chunks : list (Chunk F))
    (total_score total_weight : F) : F * F :=
  match chunks with
  | [] => (total_score, total_weight)
  | chunk :: rest =>
      let weight := weight_at i in
      confidence_loop (S i) rest
        (fadd total_score (fmul (similarity_score chunk) weight))
        (fadd total_weight weight)
  end.

Definition _estimate_confidence (chunks : list (Chunk F)) : F :=
  match chunks with
  | [] => f0_0
  | _ =>
      let '(total_score, total_weight) :=
        confidence_loop 0 (take 5 chunks) f0_0 f0_0 in
      let confidence :=
        if flt f0_0 total_weight then fdiv total_score total_weight
        else f0_0 in
      py_min confidence f1_0
  end.

(** The specification's wording of the same quantity: a weighted sum of
    the scores of the first [min(n, 5)] chunks, divided by the sum of the
    weights used, clamped at 1.0; 0.0 for no chunk.  Sums run left to
    right from 0.0. *)
Definition fsum (l : list F) : F := fold_left fadd l f0_0.

Definition spec_confidence (chunks : list (Chunk F)) : F :=
  match chunks with
  | [] => f0_0
  | _ =>
      let n := Nat.min (length chunks) 5 in
      let scores := map similarity_score (take n chunks) in
      py_min (fdiv (fsum (zip_with fmul scores weights))
                   (fsum (take n weights)))
             f1_0
  end.
End Confidence.

(** ** The language-model boundary

    [client.chat.completions.create] is the only external call of the
    service.  A computation of the service is a tree whose [Create] nodes
    are those calls; the continuation receives whatever the call did: it
    raised, or it returned a response object (or [None]). *)

Record PyException : Type := mkException {
  exc_type : string;
  exc_str : string                (* str(e) *)
}.

Record ChatMessage : Type := mkChatMessage {
  role : string;
  content : string
}.

Record Request (F : Type) : Type := mkRequest {
  model : string;
  messages : list ChatMessage;
  temperature : F;
  max_tokens : Z;
  top_p : option F;               (* None: keyword not passed *)
  frequency_penalty : option F;
  presence_penalty : option F
}.
Arguments mkRequest {F} _ _ _ _ _ _ _.

Record ResponseMessage : Type := mkResponseMessage {
  message_content : option string
}.

Record Choice : Type := mkChoice { message : ResponseMessage }.

Record ChatCompletion : Type := mkChatCompletion { choices : list Choice }.

Inductive Reply : Type :=
| Raises (e : PyException)
| Responds (response : option ChatCompletion).

Inductive io (F A : Type) : Type :=
| Return (a : A)
| Raise (e : PyException)
| Create (req : Request F) (k : Reply -> io F A).
Arguments Return {F A} _.
Arguments Raise {F A} _.
Arguments Create {F A} _ _.

Fixpoint bind {F A B} (m : io F A) (f : A -> io F B) : io F B :=
  match m with
  | Return a => f a
  | Raise e => Raise e
  | Create req k => Create req (fun r => bind (k r) f)
  end.

#[export] Instance io_ret {F} : MRet (io F) := fun A a => Return a.
#[export] Instance io_bind {F} : MBind (io F) := fun A B f m => bind m f.

(** [try: body  except Exception as e: handler(e)] *)
Fixpoint try_except {F A} (body : io F A) (handler : PyException -> io F A)
    : io F A :=
  match body with
  | Return a => Return a
  | Raise e => handler e
  | Create req k => Create req (fun r => try_except (k r) handler)
  end.

(** One call of [client.chat.completions.create(...)]. *)
Definition chat_completions_create {F} (req : Request F)
    : io F (option ChatCompletion) :=
  Create req (fun r =>
    match r with
    | Raises e => Raise e
    | Responds response => Return response
    end).

(** Running a computation against a language model, given as the function
    from requests to what the call does; the list collects the requests
    that were sent, in order. *)
Inductive Outcome (A : Type) : Type :=
| Returned (a : A)
| Raised (e : PyException).
Arguments Returned {A} _.
Arguments Raised {A} _.

Fixpoint run {F A} (llm : Request F -> Reply) (m : io F A)
    : Outcome A * list (Request F) :=
  match m with
  | Return a => (Returned a, [])
  | Raise e => (Raised e, [])
  | Create req k =>
      let '(o, sent) := run llm (k (llm req)) in (o, req :: sent)
  end.

(** ** The service object *)

Record AzureOpenAI : Type := mkAzureOpenAI {
  client_api_key : string;
  client_api_version : string;
  client_azure_endpoint : string
}.

Record AzureOpenAIService : Type := mkService {
  api_key : string;
  endpoint : string;
  api_version : string;
  deployment_name : string;
  client : option AzureOpenAI;
  model_name : option string
}.

(** The dictionaries that [generate_rag_answer] returns.  The key
    ["model_used"] is present only in the answer of a successful
    generation; its value is [self.model_name], which may be [None]. *)
Record Source (F : Type) : Type := mkSource {
  source_chunk_id : string;
  source_similarity_score : F;
  preview : string
}.
Arguments mkSource {F} _ _ _.

Record Answer (F : Type) : Type := mkAnswer {
  answer : string;
  confidence : F;
  sources : list (Source F);
  chunks_retrieved : Z;
  model_used : option (option string)
}.
Arguments mkAnswer {F} _ _ _ _ _.
Arguments answer {F} _.
Arguments confidence {F} _.
Arguments sources {F} _.
Arguments chunks_retrieved {F} _.
Arguments model_used {F} _.

(** ** [AzureOpenAIService._create_rag_prompts] *)

Definition system_prompt_text : string :=
"You are a helpful AI assistant who explains documents in a friendly, conversational way.

    YOUR PERSONALITY:
    - Talk naturally like a knowledgeable friend helping someone understand something
    - Be warm, approachable, and patient
    - Explain things clearly so anyone can understand, regardless of their background
    - Use everyday language - avoid jargon unless necessary (then explain it)

    RESPONSE FORMAT:
    - Use Markdown to make your response easy to read and visually appealing
    - Structure your answer logically with clear sections
    - Use appropriate formatting:
      * **Bold text** for key concepts or important terms
      * `code formatting` for technical terms, file names, or specific values
      * Bullet points for lists or multiple items
      * Numbered lists for sequential steps or procedures
      * > Blockquotes for tips, warnings, or important notes
      * ### Subheadings to organize different aspects of your answer

    HOW TO ANSWER:
    - Start with a direct, clear answer to the question
    - Then provide context and explanation to help them understand WHY
    - If there are multiple aspects, break them down into digestible parts
    - Use examples or analogies when helpful
    - Connect information in a way that builds understanding
    - End with a summary or key takeaway if the answer is complex

    TONE GUIDELINES:
    - Natural and conversational (like talking to a colleague over coffee)
    - Professional but not stiff or overly formal
    - Helpful and educational
    - Confident but humble - if something isn't in the document, say so clearly

    WHAT TO AVOID:
    - Don't sound like you're writing a textbook or essay
    - Don't use phrases like " ++ dq ++
"according to the document" ++ dq ++
" or " ++ dq ++
"the context states" ++ dq ++
"
    - Don't overwhelm with too much information at once
    - Don't make up information - only use what's in the provided context

    If the document doesn't contain the answer, say something like:
    " ++ dq ++
"I don't see information about that in this document. The document focuses on [what it does cover], but doesn't mention [what they asked about]." ++ dq ++
"
    ".
Definition user_prompt_text (question context : string) : string :=
  "Here's the relevant information from the document:" ++ nl ++ nl ++
  "    " ++ context ++ nl ++ nl ++
  "    ---" ++ nl ++ nl ++
  "    The user wants to know: **" ++ question ++ "**" ++ nl ++ nl ++
  "    Please provide a helpful, well-formatted explanation that makes this easy to understand:".

Definition _create_rag_prompts (question context : string)
    : string * string :=
  (system_prompt_text, user_prompt_text question context).

Section Service.
Context {F : Type} `{PyFloat F}.

(** ** [AzureOpenAIService._generate_completion]

    The call runs in an executor and is awaited; for the caller this is
    a sequential call.  The handler logs and re-raises. *)
Definition _generate_completion (self : AzureOpenAIService)
    (system_prompt user_prompt : string) (temperature : F)
    (max_tokens : Z) : io F (option string) :=
  try_except
    (match client self with
     | None =>
         Raise (mkException "AttributeError"
                  "'NoneType' object has no attribute 'chat'")
     | Some _ =>
         response ← chat_completions_create
           (mkRequest (deployment_name self)
              [mkChatMessage "system" system_prompt;
               mkChatMessage "user" user_prompt]
              temperature max_tokens (Some f0_8) (Some f0_0) (Some f0_0));
         match response with
         | Some r =>
             match choices r with
             | c :: _ => Return (message_content (message c))
             | [] => Return None
             end
         | None => Return None
         end
     end)
    (fun e => Raise e).

(** [chunk["text"][:200] + "..." if len(chunk["text"]) > 200
     else chunk["text"]] *)
Definition source_of (chunk : Chunk F) : Source F :=
  mkSource (chunk_id chunk) (similarity_score chunk)
    (if len (text chunk) >? 200 then slice_to 200 (text chunk) ++ "..."
     else text chunk).

(** Truth value of an [Optional[str]]. *)
Definition truthy (response : option string) : bool :=
  match response with
  | Some (String _ _) => true
  | _ => false
  end.

(** ** [AzureOpenAIService.generate_rag_answer]

    The [logger] calls are left out: they do not touch the result. *)
Definition service_not_available : Answer F :=
  mkAnswer "Azure OpenAI service not available" f0_0 [] 0 None.

Definition no_relevant_context : Answer F :=
  mkAnswer
    "No relevant context found in the document to answer this question."
    f0_0 [] 0 None.

Definition generate_rag_answer (self : AzureOpenAIService)
    (question : string) (relevant_chunks : list (Chunk F))
    (document_id : string) (temperature : F) (max_tokens : Z)
    : io F (Answer F) :=
  match client self with
  | None => Return service_not_available
  | Some _ =>
      try_except
        (match relevant_chunks with
         | [] => Return no_relevant_context
         | _ =>
             let context :=
               _build_context relevant_chunks default_max_length in
             let '(system_prompt, user_prompt) :=
               _create_rag_prompts question context in
             response ← _generate_completion self system_prompt
                           user_prompt temperature max_tokens;
             if truthy response then
               let answer_text := strip (default "" response) in
               let confidence := _estimate_confidence relevant_chunks in
               let sources := map source_of (take 3 relevant_chunks) in
               Return (mkAnswer answer_text confidence sources
                         (Z.of_nat (length relevant_chunks))
                         (Some (model_name self)))
             else
               Return (mkAnswer
                 "Unable to generate response - empty response from Azure OpenAI"
                 f0_0 [] (Z.of_nat (length relevant_chunks)) None)
         end)
        (fun e =>
           Return (mkAnswer ("Error generating answer: " ++ exc_str e)
                     f0_0 [] (Z.of_nat (length relevant_chunks)) None))
  end.

(** The defaults [temperature: float = 0.3], [max_tokens: int = 500]. *)
Definition default_temperature : F := f0_3.
Definition default_max_tokens : Z := 500.

(** Vocabulary for the statements about upstream failure: the call raised,
    or it returned nothing to answer with (no response object, no choice,
    or a first choice without text). *)
Definition upstream_failure (r : Reply) : bool :=
  match r with
  | Raises _ => true
  | Responds None => true
  | Responds (Some response) =>
      match choices response with
      | [] => true
      | c :: _ => negb (truthy (message_content (message c)))
      end
  end.

(** The result objects that report a failure: confidence 0.0, no source,
    no model name, and the fixed message of the branch that was taken (or
    the text of the exception). *)
Definition could_not_generate (self : AzureOpenAIService)
    (relevant_chunks : list (Chunk F)) (a : Answer F) : Prop :=
  confidence a = f0_0 /\ sources a = [] /\ model_used a = None /\
  match client self, relevant_chunks with
  | None, _ => a = service_not_available
  | Some _, [] => a = no_relevant_context
  | Some _, _ :: _ =>
      chunks_retrieved a = Z.of_nat (length relevant_chunks) /\
      (answer a
       = "Unable to generate response - empty response from Azure OpenAI" \/
       exists e, answer a = "Error generating answer: " ++ exc_str e)
  end.
End Service.

(** ** [AzureOpenAIService.__init__] and [_initialize_client]

    [getenv] is the process environment.  The constructor of the client
    object itself does no request; the test request that follows it does. *)

(** [a or b] on [Optional[str]] values. *)
Definition py_or (a b : option string) : option string :=
  match a with
  | Some (String _ _) => a
  | _ => b
  end.

Section Construction.
Context {F : Type} `{PyFloat F}.

Definition _initialize_client (self : AzureOpenAIService)
    : io F AzureOpenAIService :=
  let self1 :=
    mkService (api_key self) (endpoint self) (api_version self)
      (deployment_name self)
      (Some (mkAzureOpenAI (api_key self) (api_version self)
               (endpoint self)))
      (model_name self) in
  try_except
    (test_response ← chat_completions_create
       (mkRequest (deployment_name self1)
          [mkChatMessage "user" "Test"] f0_1 10 None None None);
     match test_response with
     | Some _ =>
         Return (mkService (api_key self1) (endpoint self1)
                   (api_version self1) (deployment_name self1)
                   (client self1) (Some (deployment_name self1)))
     | None => Return self1
     end)
    (fun e => Raise e).

Definition __init__ (getenv : string -> option string)
    (api_key endpoint api_version deployment_name : option string)
    : io F AzureOpenAIService :=
  let api_key := py_or api_key (getenv "AZURE_OPENAI_API_KEY") in
  let endpoint := py_or endpoint (getenv "AZURE_OPENAI_ENDPOINT") in
  let api_version :=
    py_or api_version
      (Some (default "2024-02-15-preview"
               (getenv "AZURE_OPENAI_API_VERSION"))) in
  let deployment_name :=
    py_or deployment_name
      (Some (default "gpt-4" (getenv "AZURE_OPENAI_DEPLOYMENT_NAME"))) in
  match api_key with
  | Some (String _ _ as k) =>
      match endpoint with
      | Some (String _ _ as e) =>
          _initialize_client
            (mkService k e (default "" api_version)
               (default "" deployment_name) None None)
      | _ =>
          Raise (mkException "ValueError"
                   "AZURE_OPENAI_ENDPOINT environment variable is required")
      end
  | _ =>
      Raise (mkException "ValueError"
               "AZURE_OPENAI_API_KEY environment variable is required")
  end.
End Construction.

(** A service object for the examples. *)
Definition example_service : AzureOpenAIService :=
  mkService "key" "https://example" "2024-02-15-preview" "gpt-4"
    (Some (mkAzureOpenAI "key" "2024-02-15-preview" "https://example"))
    (Some "gpt-4").

(** ** The vector cache ([Backend/vector_cache.py])

    Arrays are NumPy objects that the caller and the cache share by
    reference, and FAISS normalises in place; so arrays live in a heap and
    the cache stores references.  NumPy and FAISS are external libraries:
    what they compute is a parameter of the model ([Faiss]), each call
    either returning or raising.  The clock ([datetime.now()]) is an
    argument of the operations that read it. *)

Record ndarray (F : Type) : Type := mkArray {
  shape : list nat;
  data : list F                   (* the buffer, row-major *)
}.
Arguments mkArray {F} _ _.
Arguments shape {F} _.
Arguments data {F} _.

Class Faiss (F : Type) : Type := {
  (* dtype conversion of one element by [astype('float32')] *)
  to_float32 : F -> F;
  (* the type of [faiss.IndexFlatIP] objects *)
  Index : Type;
  (* [faiss.IndexFlatIP(d)] *)
  IndexFlatIP : nat -> Index;
  (* [faiss.normalize_L2(x)]: the new contents of [x], or an exception *)
  normalize_L2 : ndarray F -> Outcome (ndarray F);
  (* [index.add(x)]: the index after the call, or an exception *)
  index_add : Index -> ndarray F -> Outcome Index
}.

Module VectorCache.
Section Cache.
Context {F : Type} `{Faiss F}.
(* the chunk dictionaries, the metadata dictionary, [datetime] values *)
Context {CachedChunk Metadata Time : Type}.

(** References to arrays. *)
Definition ref : Type := nat.

(** One value of [self._cache]. *)
Record Entry : Type := mkEntry {
  embeddings : ref;
  chunks : list CachedChunk;
  metadata : Metadata;
  faiss_index : Index;
  cached_at : Time
}.

(** The attributes of a [VectorCache] object. *)
Record t : Type := mkCache {
  _cache : gmap string Entry;
  _initialized : bool;
  _last_refresh : option Time
}.

(** The arrays of the process and the cache object. *)
Record World : Type := mkWorld {
  heap : gmap ref (ndarray F);
  self : t
}.

(** Statements: they change the world, then return or raise.  Nothing is
    rolled back when a statement raises. *)
Definition M (A : Type) : Type := World -> Outcome A * World.

Definition ret {A} (a : A) : M A := fun w => (Returned a, w).
Definition raise {A} (e : PyException) : M A := fun w => (Raised e, w).
Definition seq {A B} (m : M A) (k : A -> M B) : M B :=
  fun w =>
    match m w with
    | (Returned a, w') => k a w'
    | (Raised e, w') => (Raised e, w')
    end.
#[export] Instance M_ret : MRet M := @ret.
#[export] Instance M_bind : MBind M := fun A B k m => seq m k.

(** Reading through a reference.  A Python reference is never dangling;
    the second case is there to make the function total. *)
Definition deref (r : ref) : M (ndarray F) :=
  fun w =>
    match heap w !! r with
    | Some a => (Returned a, w)
    | None => (Raised (mkException "dangling" ""), w)
    end.

(** A new array object. *)
Definition alloc (a : ndarray F) : M ref :=
  fun w =>
    let r := fresh (dom (heap w)) in
    (Returned r, mkWorld (<[r := a]> (heap w)) (self w)).

(** Overwriting the contents of an array object in place. *)
Definition store (r : ref) (a : ndarray F) : M unit :=
  fun w => (Returned tt, mkWorld (<[r := a]> (heap w)) (self w)).

(** Running an external call. *)
Definition call {A} (o : Outcome A) : M A := fun w => (o, w).

(** [a.shape[i]] *)
Definition shape_at (a : ndarray F) (i : nat) : M nat :=
  match shape a !! i with
  | Some n => ret n
  | None => raise (mkException "IndexError" "tuple index out of range")
  end.

(** [a.copy()] and [a.astype('float32')]: each makes a new array. *)
Definition copy (r : ref) : M ref :=
  a ← deref r; alloc a.

Definition astype_float32 (r : ref) : M ref :=
  a ← deref r; alloc (mkArray (shape a) (map to_float32 (data a))).

(** [faiss.normalize_L2(x)] works on the buffer of [x]. *)
Definition normalize_L2_inplace (r : ref) : M unit :=
  a ← deref r; a' ← call (normalize_L2 a); store r a'.

(** [self._cache[document_id] = entry] *)
Definition cache_setitem (document_id : string) (e : Entry) : M unit :=
  fun w =>
    (Returned tt,
     mkWorld (heap w)
       (mkCache (<[document_id := e]> (_cache (self w)))
          (_initialized (self w)) (_last_refresh (self w)))).

(** [VectorCache.__init__] *)
Definition __init__ : t := mkCache ∅ false None.

(** [VectorCache.is_cached]: [document_id in self._cache] *)
Definition is_cached (c : t) (document_id : string) : bool :=
  bool_decide (document_id ∈ dom (_cache c)).

(** [VectorCache.get]: [self._cache.get(document_id)] *)
Definition get (c : t) (document_id : string) : option Entry :=
  _cache c !! document_id.

(** [VectorCache.set]; [now] is what [datetime.now()] returns.  The
    whole body runs under [self._lock]; the [logger] call at its end is
    left out. *)
Definition set (now : Time) (document_id : string) (embeddings : ref)
    (chunks : list CachedChunk) (metadata : Metadata) : M unit :=
  arr ← deref embeddings;
  dimension ← shape_at arr 1;
  let index := IndexFlatIP dimension in
  copied ← copy embeddings;
  embeddings_normalized ← astype_float32 copied;
  _ ← normalize_L2_inplace embeddings_normalized;
  x ← deref embeddings_normalized;
  index' ← call (index_add index x);
  cache_setitem document_id
    (mkEntry embeddings chunks metadata index' now).

(** [VectorCache.remove] *)
Definition remove (c : t) (document_id : string) : bool * t :=
  if bool_decide (document_id ∈ dom (_cache c))
  then (true, mkCache (delete document_id (_cache c))
                (_initialized c) (_last_refresh c))
  else (false, c).

(** [VectorCache.clear] *)
Definition clear (c : t) : t := mkCache ∅ false None.

(** [VectorCache.mark_initialized] *)
Definition mark_initialized (now : Time) (c : t) : t :=
  mkCache (_cache c) true (Some now).

(** [VectorCache.is_initialized] *)
Definition is_initialized (c : t) : bool := _initialized c.

(** The public operations as calls on a world, and sequences of them. *)
Inductive Op : Type :=
| OpSet (now : Time) (document_id : string) (embeddings : ref)
    (chunks : list CachedChunk) (metadata : Metadata)
| OpGet (document_id : string)
| OpIsCached (document_id : string)
| OpRemove (document_id : string)
| OpClear
| OpMarkInitialized (now : Time)
| OpIsInitialized.

Definition on_self (f : t -> t) (w : World) : World :=
  mkWorld (heap w) (f (self w)).

Definition perform (op : Op) (w : World) : World :=
  match op with
  | OpSet now d e ch md => snd (set now d e ch md w)
  | OpGet _ | OpIsCached _ | OpIsInitialized => w
  | OpRemove d => on_self (fun c => snd (remove c d)) w
  | OpClear => on_self clear w
  | OpMarkInitialized now => on_self (mark_initialized now) w
  end.

Definition perform_all (ops : list Op) (w : World) : World :=
  fold_left (fun w op => perform op w) ops w.

(** Vocabulary: the libraries take the array, and [idx] is the index they
    build from it: the array has a second axis, [normalize_L2] returns on
    its single-precision copy, and [add] returns on the result. *)
Definition builds_index (arr : ndarray F) (idx : Index) : Prop :=
  exists d x',
    shape arr !! 1%nat = Some d /\
    normalize_L2 (mkArray (shape arr) (map to_float32 (data arr)))
    = Returned x' /\
    index_add (IndexFlatIP d) x' = Returned idx.

(** Vocabulary: the arrays that exist in [w] are still there, unchanged,
    in [w']. *)
Definition arrays_kept (w w' : World) : Prop :=
  forall r a, heap w !! r = Some a -> heap w' !! r = Some a.
End Cache.
Arguments Entry {F _} _ _ _.
Arguments t {F _} _ _ _.
Arguments World {F _} _ _ _.
Arguments Op _ _ _ : clear implicits.
End VectorCache.

(** An instance of the library interface for examples: a flat
    inner-product index over doubles that stores the rows it is given,
    [normalize_L2] scaling every row of a two-dimensional array to unit
    Euclidean norm (rows of norm 0 are left alone), and [add] refusing an
    array that is not two-dimensional of the index's width.  (Rounding to
    single precision is not reproduced.) *)
Record FlatIndex : Type := mkFlatIndex {
  index_d : nat;
  index_ntotal : nat;
  index_xb : list float
}.

Definition renorm_row (row : list float) : list float :=
  let nr := fold_left (fun acc x => (acc + x * x)%float) row 0%float in
  if PrimFloat.ltb 0%float nr
  then map (fun x => (x * (1 / PrimFloat.sqrt nr))%float) row
  else row.

Fixpoint renorm_rows (n d : nat) (buffer : list float) : list float :=
  match n with
  | O => buffer
  | S n' => renorm_row (take d buffer) ++ renorm_rows n' d (drop d buffer)
  end.

#[export] Instance flat_faiss : Faiss float := {|
  to_float32 := fun x => x;
  Index := FlatIndex;
  IndexFlatIP := fun d => mkFlatIndex d 0 [];
  normalize_L2 := fun a =>
    match shape a with
    | [n; d] => Returned (mkArray [n; d] (renorm_rows n d (data a)))
    | _ => Raised (mkException "ValueError" "array is not two-dimensional")
    end;
  index_add := fun idx x =>
    match shape x with
    | [n; d] =>
        if (d =? index_d idx)%nat
        then Returned (mkFlatIndex (index_d idx) (index_ntotal idx + n)
                         (index_xb idx ++ data x))
        else Raised (mkException "AssertionError" "")
    | _ => Raised (mkException "ValueError"
                     "not enough values to unpack (expected 2)")
    end
|}.

(** Worlds for the examples: one array of two rows of width three, or one
    array with a single axis; chunks and metadata are strings, the clock
    counts. *)
Definition two_rows : ndarray float :=
  mkArray [2; 3]%nat [3; 0; 4; 0; 2; 0]%float.

Definition one_axis : ndarray float := mkArray [3%nat] [3; 0; 4]%float.

Definition example_world (a : ndarray float)
    : VectorCache.World string string nat :=
  VectorCache.mkWorld {[ 0%nat := a ]} VectorCache.__init__.

(** ** [get_vector_cache]: the module-level singleton

    Callers run concurrently; the interpreter interleaves them between
    their accesses to the shared module state, which are: reading the
    global [_vector_cache_instance], acquiring and releasing [_cache_lock]
    (a non-reentrant [threading.Lock]), and assigning the global.  A
    caller is at one of these points; a step of the system is a step of
    one caller.  [VectorCache()] objects are named by the order of their
    construction. *)
Module Singleton.

Inductive pc : Type :=
| Check                       (* if _vector_cache_instance is None: *)
| Acquire                     (*   with _cache_lock: (entering) *)
| Recheck                     (*     if _vector_cache_instance is None: *)
| Construct                   (*       VectorCache() *)
| Assign (obj : nat)          (*       _vector_cache_instance = <obj> *)
| Release                     (*   (leaving the with block) *)
| Read                        (* return _vector_cache_instance *)
| Done (result : option nat). (* returned to the caller *)

Record State : Type := mkState {
  _vector_cache_instance : option nat;
  _cache_lock : bool;                      (* held? *)
  constructed : nat;                       (* objects built so far *)
  callers : list pc
}.

Definition at_pc (s : State) (i : nat) (p : pc) : State :=
  mkState (_vector_cache_instance s) (_cache_lock s) (constructed s)
    (<[i := p]> (callers s)).

(** One step of caller [i]; [None] when caller [i] cannot move (it does
    not exist, it has returned, or it waits for the lock). *)
Definition step (i : nat) (s : State) : option State :=
  match callers s !! i with
  | Some Check =>
      Some (at_pc s i
              (match _vector_cache_instance s with
               | Some _ => Read
               | None => Acquire
               end))
  | Some Acquire =>
      if _cache_lock s then None
      else Some (mkState (_vector_cache_instance s) true (constructed s)
                   (<[i := Recheck]> (callers s)))
  | Some Recheck =>
      Some (at_pc s i
              (match _vector_cache_instance s with
               | Some _ => Release
               | None => Construct
               end))
  | Some Construct =>
      Some (mkState (_vector_cache_instance s) (_cache_lock s)
              (S (constructed s))
              (<[i := Assign (constructed s)]> (callers s)))
  | Some (Assign obj) =>
      Some (mkState (Some obj) (_cache_lock s) (constructed s)
              (<[i := Release]> (callers s)))
  | Some Release =>
      Some (mkState (_vector_cache_instance s) false (constructed s)
              (<[i := Read]> (callers s)))
  | Some Read =>
      Some (at_pc s i (Done (_vector_cache_instance s)))
  | Some (Done _) | None => None
  end.

(** A fresh process with [n] callers about to call. *)
Definition init (n : nat) : State :=
  mkState None false 0 (replicate n Check).

(** A schedule names the caller that moves next; a caller that cannot
    move keeps the state as it is. *)
Definition exec (schedule : list nat) (s : State) : State :=
  fold_left (fun s i => default s (step i s)) schedule s.

(** A later call: one more caller arrives. *)
Definition arrive (s : State) : State :=
  mkState (_vector_cache_instance s) (_cache_lock s) (constructed s)
    (callers s ++ [Check])%list.

(** A call that runs alone from start to return: at most seven steps. *)
Definition call_alone (s : State) : State :=
  let i := length (callers s) in
  exec (replicate 7 i) (arrive s).

(** Vocabulary for the invariant of the protocol.  A caller holds the
    lock from [Recheck] to [Release]. *)
Definition in_cs (p : pc) : bool :=
  match p with
  | Recheck | Construct | Assign _ | Release => true
  | _ => false
  end.

(** What a caller at [p] can rely on about the global and the number of
    objects built. *)
Definition pc_ok (inst : option nat) (n : nat) (p : pc) : Prop :=
  match p with
  | Check | Acquire => True
  | Recheck => inst = None -> n = 0%nat
  | Construct => inst = None /\ n = 0%nat
  | Assign obj => inst = None /\ obj = 0%nat /\ n = 1%nat
  | Release | Read => inst = Some 0%nat
  | Done result => result = Some 0%nat /\ inst = Some 0%nat
  end.

Record Inv (s : State) : Prop := mkInv {
  inv_count : (constructed s <= 1)%nat;
  inv_instance :
    forall obj, _vector_cache_instance s = Some obj ->
                obj = 0%nat /\ constructed s = 1%nat;
  inv_unlocked :
    _cache_lock s = false -> _vector_cache_instance s = None ->
    constructed s = 0%nat;
  inv_pc :
    forall i p, callers s !! i = Some p ->
                pc_ok (_vector_cache_instance s) (constructed s) p;
  inv_lock :
    forall i p, callers s !! i = Some p -> in_cs p = true ->
                _cache_lock s = true;
  inv_mutex :
    forall i j p q,
      callers s !! i = Some p -> callers s !! j = Some q ->
      in_cs p = true -> in_cs q = true -> i = j
}.

(** The accesses a caller at [p] has still to make before it has returned,
    at most; [remaining] adds them up over the callers. *)
Definition rank (p : pc) : nat :=
  match p with
  | Check => 7
  | Acquire => 6
  | Recheck => 5
  | Construct => 4
  | Assign _ => 3
  | Release => 2
  | Read => 1
  | Done _ => 0
  end.

Definition remaining (s : State) : nat := sum_list_with rank (callers s).

(** Whoever holds the lock is among the callers. *)
Definition lock_has_holder (s : State) : Prop :=
  _cache_lock s = true ->
  exists j p, callers s !! j = Some p /\ in_cs p = true.

End Singleton.

(** ** [AzureOpenAIService.test_connection] and [get_service_info]

    The dictionary that [test_connection] returns always has the keys
    ["status"] and ["message"]; the five other keys come with the success
    result only. *)

Record ConnectionDetails : Type := mkConnectionDetails {
  test_model_name : option string;
  test_deployment_name : string;
  test_response : string;
  test_endpoint : string;
  test_api_version : string
}.

Record ConnectionTest : Type := mkConnectionTest {
  test_status : string;
  test_message : string;
  test_details : option ConnectionDetails
}.

Record ServiceInfo : Type := mkServiceInfo {
  service : string;
  model_available : bool;
  info_model_name : option string;
  info_deployment_name : string;
  info_endpoint : string;
  info_api_version : string
}.

Definition test_context : string :=
  nl ++
  "Context: Artificial Intelligence (AI) is a broad field of computer science "
  ++ nl ++
  "that aims to create machines capable of performing tasks that typically "
  ++ nl ++
  "require human intelligence." ++ nl.

Definition test_question : string := "What is AI?".

Section Diagnostics.
Context {F : Type} `{PyFloat F}.

Definition test_connection (self : AzureOpenAIService)
    : io F ConnectionTest :=
  try_except
    (match client self with
     | None =>
         Return (mkConnectionTest "error"
                   "Azure OpenAI client not initialized" None)
     | Some _ =>
         let '(system_prompt, user_prompt) :=
           _create_rag_prompts test_question test_context in
         response ← _generate_completion self system_prompt user_prompt
                      f0_1 100;
         Return (mkConnectionTest "success"
                   "Azure OpenAI API is working with RAG"
                   (Some (mkConnectionDetails (model_name self)
                            (deployment_name self)
                            (if truthy response then default "" response
                             else "No response text")
                            (endpoint self) (api_version self))))
     end)
    (fun e =>
       Return (mkConnectionTest "error"
                 ("Azure OpenAI test failed: " ++ exc_str e) None)).

Definition get_service_info (self : AzureOpenAIService) : ServiceInfo :=
  mkServiceInfo "Azure OpenAI"
    (match client self with Some _ => true | None => false end)
    (model_name self) (deployment_name self) (endpoint self)
    (api_version self).
End Diagnostics.

(** ** The vector cache: key order and the read-only views

    A Python dictionary is a mapping together with the insertion order of
    its keys.  For [self._cache] the mapping is [_cache] above; its key
    order is kept beside the world here, and follows the three statements
    that change the dictionary: the assignment [self._cache[document_id] =
    ...] (the last statement of [set], reached exactly when [set] returns;
    a key that is already there keeps its place), [del
    self._cache[document_id]] in [remove], and [self._cache.clear()].

    Metadata dictionaries map strings to values of a type [Value];
    [str_value] makes a value of a string, [isoformat] is
    [datetime.isoformat]. *)
Module CacheViews.
Section Views.
Context {F : Type} `{Faiss F}.
Context {CachedChunk Value Time : Type}.
Variable str_value : string -> Value.
Variable isoformat : Time -> string.
Import VectorCache.

Local Abbreviation world := (World CachedChunk (gmap string Value) Time).
Local Abbreviation entry := (Entry CachedChunk (gmap string Value) Time).

Record State : Type := mkState {
  the_world : world;
  key_order : list string
}.

Definition order_setitem (k : string) (order : list string) : list string :=
  if bool_decide (k ∈ order) then order else (order ++ [k])%list.

Definition order_delitem (k : string) (order : list string) : list string :=
  filter (fun k' => k' <> k) order.

(** The public operations, on the world and on the key order. *)
Definition perform (op : Op CachedChunk (gmap string Value) Time)
    (s : State) : State :=
  mkState (VectorCache.perform op (the_world s))
    match op with
    | OpSet now d e ch md =>
        match fst (set now d e ch md (the_world s)) with
        | Returned _ => order_setitem d (key_order s)
        | Raised _ => key_order s
        end
    | OpRemove d =>
        if is_cached (self (the_world s)) d
        then order_delitem d (key_order s)
        else key_order s
    | OpClear => []
    | OpGet _ | OpIsCached _ | OpMarkInitialized _ | OpIsInitialized =>
        key_order s
    end.

Definition perform_all
    (ops : list (Op CachedChunk (gmap string Value) Time)) (s : State)
    : State :=
  fold_left (fun s op => perform op s) ops s.

(** A new process: some arrays, a new cache. *)
Definition start (h : gmap ref (ndarray F)) : State :=
  mkState (mkWorld h __init__) [].

(** [self._cache.keys()], [.items()] and [.values()] *)
Definition cache_keys (s : State) : list string := key_order s.

Definition cache_items (s : State) : list (string * entry) :=
  omap (fun k => (fun e => (k, e)) <$> _cache (self (the_world s)) !! k)
    (key_order s).

Definition cache_values (s : State) : list entry :=
  map snd (cache_items s).

(** [VectorCache.get_all_document_ids] *)
Definition get_all_document_ids (s : State) : list string :=
  cache_keys s.

(** [VectorCache.get_all_metadata] *)
Definition get_all_metadata (s : State) : list (gmap string Value) :=
  map (fun '(doc_id, data) =>
         let meta := metadata data in               (* .copy() *)
         let meta := <["document_id" := str_value doc_id]> meta in
         <["cached_at" := str_value (isoformat (cached_at data))]> meta)
    (cache_items s).

(** [VectorCache.get_stats] *)
Record Stats : Type := mkStats {
  total_documents : nat;
  total_chunks : nat;
  total_vectors : nat;
  initialized : bool;
  last_refresh : option string;
  document_ids : list string
}.

(** [sum(data["embeddings"].shape[0] for data in self._cache.values())] *)
Fixpoint sum_vectors (h : gmap ref (ndarray F)) (values : list entry)
    : Outcome nat :=
  match values with
  | [] => Returned 0%nat
  | data :: rest =>
      match h !! embeddings data with
      | None => Raised (mkException "dangling" "")
      | Some a =>
          match shape a !! 0%nat with
          | None =>
              Raised (mkException "IndexError" "tuple index out of range")
          | Some n =>
              match sum_vectors h rest with
              | Returned m => Returned (n + m)%nat
              | Raised e => Raised e
              end
          end
      end
  end.

Definition get_stats (s : State) : Outcome Stats :=
  let c := self (the_world s) in
  let total_chunks :=
    foldr Nat.add 0%nat (map (fun data => length (chunks data))
                           (cache_values s)) in
  match sum_vectors (heap (the_world s)) (cache_values s) with
  | Raised e => Raised e
  | Returned total_vectors =>
      Returned
        (mkStats (size (_cache c)) total_chunks total_vectors
           (_initialized c) (isoformat <$> _last_refresh c) (cache_keys s))
  end.

(** Vocabulary: the key order lists the keys of the mapping, once each;
    and every entry refers to an array that is there and has two axes. *)
Definition order_ok (s : State) : Prop :=
  NoDup (key_order s) /\
  forall k, k ∈ key_order s <-> k ∈ dom (_cache (self (the_world s))).

Definition entries_ok (w : world) : Prop :=
  forall k e, _cache (self w) !! k = Some e ->
    exists a d, heap w !! embeddings e = Some a /\ shape a !! 1%nat = Some d.

(** Vocabulary: the value of the initialized flag that a sequence of
    operations leaves, from the flag before: only [clear] and
    [mark_initialized] speak. *)
Definition flag_after
    (ops : list (Op CachedChunk (gmap string Value) Time)) (b : bool)
    : bool :=
  fold_left (fun b op =>
               match op with
               | OpClear => false
               | OpMarkInitialized _ => true
               | _ => b
               end) ops b.
End Views.
End CacheViews.

(** Language models and an environment for the examples. *)
Definition answering (text : string) : Request float -> Reply :=
  fun _ =>
    Responds (Some (mkChatCompletion
                      [mkChoice (mkResponseMessage (Some text))])).

Definition failing : Request float -> Reply :=
  fun _ => Raises (mkException "APIConnectionError" "Connection error.").

Definition no_environment : string -> option string := fun _ => None.

(* ===================================================================== *)
(** * Part II: properties *)
(* ===================================================================== *)

(** ** Context assembly *)

Lemma len_app (a b : string) : len (a ++ b) = len a + len b.
Proof.
  unfold len. induction a as [|ch a IH]; simpl; [reflexivity | lia].
Qed.

Lemma len_nonneg (a : string) : 0 <= len a.
Proof. unfold len. lia. Qed.

Lemma total_len_app (l1 l2 : list string) :
  total_len (l1 ++ l2)%list = total_len l1 + total_len l2.
Proof. induction l1 as [|p l1 IH]; simpl; lia. Qed.

(** [join] puts one separator between two consecutive parts. *)
Lemma len_join (sep : string) (parts : list string) :
  len (join sep parts)
  = total_len parts + len sep * Z.max 0 (Z.of_nat (length parts) - 1).
Proof.
  induction parts as [|p rest IH].
  - change (len (join sep [])) with 0. cbn [total_len fold_right length]. lia.
  - destruct rest as [|q rest].
    + cbn [join total_len fold_right length]. lia.
    + change (join sep (p :: q :: rest))
        with (p ++ sep ++ join sep (q :: rest)).
      rewrite !len_app, IH. cbn [total_len fold_right length].
      pose proof (len_nonneg sep). nia.
Qed.

Lemma labelled_length {F} (i : nat) (chunks : list (Chunk F)) :
  length (labelled i chunks) = length chunks.
Proof.
  revert i; induction chunks as [|c rest IH]; simpl; intros;
    [|rewrite IH]; reflexivity.
Qed.

(** What the loop leaves in its state: the labelled texts of a prefix of
    the chunks were appended, whole and in order; their lengths were added
    to the total; and the prefix ends at the list's end or right before the
    first chunk whose labelled text would take the total over
    [max_length]. *)
Lemma build_context_loop_spec {F} (max_length : Z) (chunks : list (Chunk F)) :
  forall (i : nat) (parts : list string) (total : Z),
  exists k : nat,
    (k <= length chunks)%nat /\
    build_context_loop max_length i chunks parts total
    = ((parts ++ labelled i (take k chunks))%list,
       total + total_len (labelled i (take k chunks))) /\
    (k <> 0%nat ->
     total + total_len (labelled i (take k chunks)) <= max_length) /\
    (forall chunk, chunks !! k = Some chunk ->
       total + total_len (labelled i (take k chunks))
       + len (chunk_text (i + k) chunk) > max_length).
Proof.
  induction chunks as [|chunk rest IH]; intros i parts total.
  - exists 0%nat. simpl. rewrite app_nil_r.
    repeat split; [lia | f_equal; lia | congruence | intros ? [=]].
  - simpl build_context_loop.
    destruct (total + len (chunk_text i chunk) >? max_length) eqn:E.
    + exists 0%nat. simpl. rewrite app_nil_r.
      repeat split; [lia | f_equal; lia | congruence |].
      intros ? [= <-]. rewrite Nat.add_0_r. apply Z.gtb_lt in E. lia.
    + destruct (IH (S i) (parts ++ [chunk_text i chunk])%list
                  (total + len (chunk_text i chunk)))
        as (k & Hk & Heq & Hle & Hgt).
      assert (Hfit : total + len (chunk_text i chunk) <= max_length).
      { destruct (Z.gtb_spec (total + len (chunk_text i chunk)) max_length);
          [discriminate | lia]. }
      exists (S k). simpl. rewrite Heq, <- app_assoc. simpl.
      repeat split.
      * lia.
      * f_equal. lia.
      * intros _. destruct k as [|k'].
        -- simpl. lia.
        -- specialize (Hle ltac:(lia)). lia.
      * intros c Hc. specialize (Hgt c Hc).
        replace (i + S k)%nat with (S i + k)%nat by lia. lia.
Qed.

(** The context is the join of the labelled texts of a prefix of the
    chunks: whole chunks, labelled from 1, in the original order, up to the
    first chunk that would take the summed length of the labelled texts
    over [max_length]. *)
Lemma build_context_whole_chunks {F} (chunks : list (Chunk F))
    (max_length : Z) :
  exists k : nat,
    (k <= length chunks)%nat /\
    _build_context chunks max_length = join nl (labelled 0 (take k chunks)) /\
    (k <> 0%nat -> total_len (labelled 0 (take k chunks)) <= max_length) /\
    (forall chunk, chunks !! k = Some chunk ->
       total_len (labelled 0 (take k chunks)) + len (chunk_text k chunk)
       > max_length).
Proof.
  destruct (build_context_loop_spec max_length chunks 0 [] 0)
    as (k & Hk & Heq & Hle & Hgt).
  exists k. unfold _build_context. rewrite Heq. simpl.
  split; [assumption|]. split; [reflexivity|]. split.
  - intros Hk0. specialize (Hle Hk0). lia.
  - intros c Hc. specialize (Hgt c Hc). simpl in Hgt. lia.
Qed.

(** Empty input gives the empty context. *)
Lemma build_context_empty {F} (max_length : Z) :
  _build_context (@nil (Chunk F)) max_length = "".
Proof. reflexivity. Qed.

(** The length that the code does guarantee: [max_length] plus one
    character for each separator that [join] inserts. *)
Lemma build_context_length {F} (chunks : list (Chunk F)) (max_length : Z) :
  0 <= max_length ->
  exists k : nat,
    (k <= length chunks)%nat /\
    len (_build_context chunks max_length)
    <= max_length + Z.max 0 (Z.of_nat k - 1).
Proof.
  intros Hmax.
  destruct (build_context_whole_chunks chunks max_length)
    as (k & Hk & Heq & Hle & _).
  exists k. split; [assumption|].
  rewrite Heq, len_join, labelled_length.
  change (len nl) with 1.
  assert (length (take k chunks) = k) as -> by (rewrite length_take; lia).
  destruct k as [|k']; [simpl; lia|].
  specialize (Hle ltac:(lia)). lia.
Qed.

(** The example of the specification: of two chunks of 6000 characters
    only the first one fits under the default maximum. *)
Example build_context_two_long_chunks :
  _build_context
    [mkChunk "c1" (repeat_char "a" (60 * 100)) 0%float;
     mkChunk "c2" (repeat_char "b" (60 * 100)) 0%float]
    default_max_length
  = "[Context 1]" ++ nl ++ repeat_char "a" (60 * 100) ++ nl.
Proof. vm_compute. reflexivity. Qed.

(** C2. The claim bounds the length of the returned context by
    [max_length].  The loop counts the labelled texts only, while the
    returned string also holds the newline that [join] puts between two
    parts: for two one-letter chunks and [max_length = 28] both chunks are
    taken (14 + 14 characters) and the context has 29 characters. *)
Theorem build_context_exceeds_max_length :
  _build_context [mkChunk "c1" "a" 0%float; mkChunk "c2" "b" 0%float] 28
  = "[Context 1]" ++ nl ++ "a" ++ nl ++ nl ++ "[Context 2]" ++ nl ++ "b" ++ nl
  /\ len (_build_context
            [mkChunk "c1" "a" 0%float; mkChunk "c2" "b" 0%float] 28) = 29.
Proof. split; vm_compute; reflexivity. Qed.


(** ** Confidence estimation *)

Section ConfidenceFacts.
Context {F : Type} `{PyFloat F}.

(** No chunk: confidence 0.0. *)
Lemma estimate_confidence_empty : _estimate_confidence [] = f0_0.
Proof. reflexivity. Qed.

(** Chunks beyond the fifth are not looked at. *)
Lemma estimate_confidence_first_five (chunks : list (Chunk F)) :
  _estimate_confidence chunks = _estimate_confidence (take 5 chunks).
Proof.
  destruct chunks as [|c rest]; [reflexivity|].
  unfold _estimate_confidence.
  rewrite take_take. reflexivity.
Qed.

Lemma weights_drop (i : nat) :
  (i < 5)%nat -> drop i weights = weight_at i :: drop (S i) weights.
Proof.
  intros Hi. do 5 (destruct i as [|i]; [reflexivity|]). lia.
Qed.

(** The loop adds, left to right, the products of the scores with the
    weights at their positions, and the weights themselves. *)
Lemma confidence_loop_sums (chunks : list (Chunk F)) :
  forall (i : nat) (total_score total_weight : F),
    (i + length chunks <= 5)%nat ->
    confidence_loop i chunks total_score total_weight
    = (fold_left fadd
         (zip_with fmul (map similarity_score chunks) (drop i weights))
         total_score,
       fold_left fadd (take (length chunks) (drop i weights))
         total_weight).
Proof.
  induction chunks as [|c rest IH]; intros i ts tw Hi.
  - simpl. destruct (drop i weights); reflexivity.
  - simpl in Hi. rewrite (weights_drop i) by lia.
    cbn [confidence_loop map zip_with length take fold_left].
    rewrite IH by lia. reflexivity.
Qed.

(** The code computes the quantity that the specification words, as soon
    as the sums of the first weights are positive (they are, at both
    carriers, see below). *)
Lemma estimate_confidence_spec_gen :
  (forall n, (1 <= n <= 5)%nat -> flt f0_0 (fsum (take n weights)) = true) ->
  forall chunks : list (Chunk F),
    _estimate_confidence chunks = spec_confidence chunks.
Proof.
  intros Hpos chunks. destruct chunks as [|c rest]; [reflexivity|].
  unfold _estimate_confidence, spec_confidence.
  set (l := c :: rest).
  assert (Hn : Nat.min (length l) 5 = length (take 5 l))
    by (rewrite length_take; lia).
  assert (Htake : take (Nat.min (length l) 5) l = take 5 l).
  { destruct (Nat.le_gt_cases (length l) 5).
    - rewrite Nat.min_l by lia. rewrite !take_ge by lia. reflexivity.
    - rewrite Nat.min_r by lia. reflexivity. }
  rewrite confidence_loop_sums by (rewrite length_take; lia).
  rewrite Htake, Hn. unfold drop.
  fold (fsum (take (length (take 5 l)) weights)).
  rewrite Hpos; [reflexivity|].
  rewrite length_take. subst l. simpl length. lia.
Qed.

(** The clamp: the result is never above 1.0. *)
Lemma estimate_confidence_not_above_one_gen :
  flt f1_0 f1_0 = false -> flt f1_0 f0_0 = false ->
  forall chunks : list (Chunk F),
    flt f1_0 (_estimate_confidence chunks) = false.
Proof.
  intros H11 H10 chunks. destruct chunks as [|c rest]; [exact H10|].
  unfold _estimate_confidence.
  destruct (confidence_loop 0 (take 5 (c :: rest)) f0_0 f0_0) as [ts tw].
  unfold py_min.
  destruct (flt f1_0 (if flt f0_0 tw then fdiv ts tw else f0_0)) eqn:E;
    assumption.
Qed.
End ConfidenceFacts.

Lemma weights_positive_binary64 (n : nat) :
  (1 <= n <= 5)%nat ->
  flt f0_0 (fsum (take n (weights (F := float)))) = true.
Proof.
  intros Hn.
  do 6 (destruct n as [|n]; [first [lia | vm_compute; reflexivity]|]).
  lia.
Qed.

Lemma weights_positive_exact (n : nat) :
  (1 <= n <= 5)%nat ->
  flt f0_0 (fsum (take n (weights (F := Q)))) = true.
Proof.
  intros Hn.
  do 6 (destruct n as [|n]; [first [lia | vm_compute; reflexivity]|]).
  lia.
Qed.

(** In double precision and in exact arithmetic alike, the value returned
    is the weighted average of the specification: weights 1.0, 0.8, 0.6,
    0.4, 0.2 by position over the first [min(n, 5)] chunks, normalised by
    the weights used, clamped at 1.0. *)
Lemma estimate_confidence_spec_binary64 (chunks : list (Chunk float)) :
  _estimate_confidence chunks = spec_confidence chunks.
Proof. apply estimate_confidence_spec_gen, weights_positive_binary64. Qed.

Lemma estimate_confidence_spec_exact (chunks : list (Chunk Q)) :
  _estimate_confidence chunks = spec_confidence chunks.
Proof. apply estimate_confidence_spec_gen, weights_positive_exact. Qed.

(** In double precision the value returned is never above 1.0. *)
Lemma estimate_confidence_not_above_one (chunks : list (Chunk float)) :
  PrimFloat.ltb 1%float (_estimate_confidence chunks) = false.
Proof.
  change (flt f1_0 (_estimate_confidence chunks) = false).
  apply estimate_confidence_not_above_one_gen; vm_compute; reflexivity.
Qed.

(** C3. The claim puts the returned confidence in the interval [0, 1].
    The code clamps at 1.0 only: for one chunk of similarity -0.5 (a
    cosine similarity may be negative) it returns -0.5. *)
Theorem estimate_confidence_negative :
  _estimate_confidence [mkChunk "c1" "t" (-0.5)%float] = (-0.5)%float
  /\ PrimFloat.ltb (_estimate_confidence [mkChunk "c1" "t" (-0.5)%float])
       0%float = true.
Proof. split; vm_compute; reflexivity. Qed.

(** *** Monotonicity under prepending *)

Section ExactConfidence.
Local Open Scope Q_scope.

Lemma py_min_exact (a b : Q) :
  (a <= b /\ py_min a b = a) \/ (b < a /\ py_min a b = b).
Proof.
  unfold py_min; simpl. destruct (Qle_bool a b) eqn:E; simpl.
  - left. split; [apply Qle_bool_iff; assumption | reflexivity].
  - right. split; [|reflexivity].
    apply Qnot_le_lt. intro Hle. apply Qle_bool_iff in Hle. congruence.
Qed.

Lemma py_min_mono (a a' b : Q) : a <= a' -> py_min a b <= py_min a' b.
Proof.
  intros Hle.
  destruct (py_min_exact a b) as [[? ->]|[? ->]];
    destruct (py_min_exact a' b) as [[? ->]|[? ->]]; lra.
Qed.

Lemma Qdiv_le_cross (a w a' w' : Q) :
  0 < w -> 0 < w' -> a * w' <= a' * w -> a / w <= a' / w'.
Proof.
  intros Hw Hw' Hle.
  apply Qle_shift_div_l; [assumption|].
  assert (E : a / w * w' == (a * w') / w).
  { field. intro E. rewrite E in Hw. inversion Hw. }
  rewrite E. apply Qle_shift_div_r; assumption.
Qed.

(** Both sides are clamped quotients of closed weight sums: compare the
    quotients by cross-multiplication and leave the linear rest to lra. *)
Ltac weighted_quotients :=
  simpl; unfold weight_at; simpl;
  apply py_min_mono, Qdiv_le_cross; [reflexivity | reflexivity | lra].




(** The exact value is never above 1. *)
Lemma estimate_confidence_le_one_exact (l : list (Chunk Q)) :
  _estimate_confidence l <= 1.
Proof.
  assert (Hlt : flt f1_0 (_estimate_confidence l) = false)
    by (apply estimate_confidence_not_above_one_gen; reflexivity).
  simpl in Hlt. apply negb_false_iff, Qle_bool_iff in Hlt. exact Hlt.
Qed.

(** With non-negative scores the exact value is not negative. *)
Lemma estimate_confidence_nonneg_exact (l : list (Chunk Q)) :
  (forall c', In c' l -> 0 <= similarity_score c') ->
  0 <= _estimate_confidence l.
Proof.
  intros Hpos.
  destruct l as [|c1 [|c2 [|c3 [|c4 [|c5 l']]]]];
    try (vm_compute; discriminate);
    repeat match goal with
    | c' : Chunk Q |- _ =>
        lazymatch goal with
        | _ : 0 <= similarity_score c' |- _ => fail
        | _ => assert (0 <= similarity_score c')
                 by (apply Hpos; simpl; tauto)
        end
    end;
    (apply Qle_trans with (py_min (0 / 1) 1); [vm_compute; discriminate|]);
    weighted_quotients.
Qed.
End ExactConfidence.


(** The same happens when the prepended score is strictly higher, by one
    unit in the last place. *)
Example estimate_confidence_prepend_binary64_strict :
  PrimFloat.ltb 0.75%float 0x1.8000000000001p-1%float = true /\
  PrimFloat.ltb
    (_estimate_confidence
       (mkChunk "c0" "t" 0x1.8000000000001p-1%float
        :: replicate 4 (mkChunk "c" "t" 0.75%float)))
    (_estimate_confidence (replicate 4 (mkChunk "c" "t" 0.75%float)))
  = true.
Proof. split; vm_compute; reflexivity. Qed.

(** Prepending a chunk of negative score to the empty list takes the
    confidence from 0.0 below 0.0: there is no clamp at 0.0. *)
Example estimate_confidence_prepend_to_empty :
  _estimate_confidence (@nil (Chunk float)) = 0%float /\
  _estimate_confidence [mkChunk "c0" "t" (-0.5)%float] = (-0.5)%float.
Proof. split; vm_compute; reflexivity. Qed.

(** ** The answer operation *)

Section ServiceFacts.
Context {F : Type} `{PyFloat F}.

(** A [try ... except Exception] whose handler returns never raises. *)
Lemma run_try_except_returns {A} (llm : Request F -> Reply)
    (body : io F A) (handler : PyException -> A) :
  exists a sent,
    run llm (try_except body (fun e => Return (handler e)))
    = (Returned a, sent).
Proof.
  induction body as [a|e|req k IH].
  - exists a, []. reflexivity.
  - exists (handler e), []. reflexivity.
  - destruct (IH (llm req)) as (a & sent & E).
    exists a, (req :: sent). simpl. rewrite E. reflexivity.
Qed.

(** Whatever the language model does, [generate_rag_answer] returns a
    result object. *)
Lemma generate_rag_answer_never_raises (self : AzureOpenAIService)
    (question : string) (relevant_chunks : list (Chunk F))
    (document_id : string) (temperature : F) (max_tokens : Z)
    (llm : Request F -> Reply) :
  exists a sent,
    run llm (generate_rag_answer self question relevant_chunks document_id
               temperature max_tokens)
    = (Returned a, sent).
Proof.
  unfold generate_rag_answer. destruct (client self).
  - apply run_try_except_returns.
  - exists service_not_available, []. reflexivity.
Qed.

(** A service object that its constructor returned has a client. *)
Lemma constructed_service_has_client (getenv : string -> option string)
    (k e v d : option string) (llm : Request F -> Reply)
    (self : AzureOpenAIService) (sent : list (Request F)) :
  run llm (__init__ getenv k e v d) = (Returned self, sent) ->
  client self <> None.
Proof.
  unfold __init__.
  destruct (py_or k _) as [[|? ?]|]; try discriminate.
  destruct (py_or e _) as [[|? ?]|]; try discriminate.
  unfold _initialize_client, chat_completions_create. simpl.
  destruct (llm _) as [ex|[r|]]; simpl; intros [= <- <-]; discriminate.
Qed.

(** C5.  With no chunk, [generate_rag_answer] is a computation without any
    request to the language model: it returns, and what it returns is the
    fixed no-relevant-context result, with confidence 0.0 and
    [chunks_retrieved] 0.  (An object without client cannot come out of
    the constructor; the guard on [self.client] comes first in the code and
    answers for it with another fixed result, also without a request.) *)
Theorem generate_rag_answer_no_chunks (self : AzureOpenAIService)
    (question document_id : string) (temperature : F) (max_tokens : Z) :
  client self <> None ->
  generate_rag_answer self question [] document_id temperature max_tokens
  = Return no_relevant_context
  /\ (forall llm : Request F -> Reply,
        run llm (generate_rag_answer self question [] document_id
                   temperature max_tokens)
        = (Returned no_relevant_context, []))
  /\ confidence no_relevant_context = f0_0
  /\ chunks_retrieved no_relevant_context = 0
  /\ answer no_relevant_context
     = "No relevant context found in the document to answer this question.".
Proof.
  intros Hclient.
  assert (E : generate_rag_answer self question [] document_id temperature
                max_tokens = Return no_relevant_context).
  { unfold generate_rag_answer. destruct (client self); [reflexivity|].
    congruence. }
  split; [exact E|]. split; [intros llm; rewrite E; reflexivity|].
  repeat split.
Qed.

(** Without a client the answer differs, the rest does not. *)
Lemma generate_rag_answer_no_chunks_any_service (self : AzureOpenAIService)
    (question document_id : string) (temperature : F) (max_tokens : Z)
    (llm : Request F -> Reply) :
  exists a,
    run llm (generate_rag_answer self question [] document_id temperature
               max_tokens) = (Returned a, [])
    /\ confidence a = f0_0 /\ chunks_retrieved a = 0.
Proof.
  unfold generate_rag_answer. destruct (client self).
  - exists no_relevant_context. repeat split.
  - exists service_not_available. repeat split.
Qed.

(** C8.  [generate_rag_answer] returns a result object whatever the
    language model does, it never raises; and when the call to the
    language model raises or brings no content, the result is a structured
    failure: confidence 0.0, no source, and the text "Error generating
    answer: ..." or "Unable to generate response - ...". *)
Theorem generate_rag_answer_upstream_failure (self : AzureOpenAIService)
    (question : string) (relevant_chunks : list (Chunk F))
    (document_id : string) (temperature : F) (max_tokens : Z) :
  (forall llm : Request F -> Reply,
     exists a sent,
       run llm (generate_rag_answer self question relevant_chunks
                  document_id temperature max_tokens)
       = (Returned a, sent))
  /\
  (forall llm : Request F -> Reply,
     (forall req, upstream_failure (llm req) = true) ->
     exists a sent,
       run llm (generate_rag_answer self question relevant_chunks
                  document_id temperature max_tokens)
       = (Returned a, sent)
       /\ could_not_generate self relevant_chunks a).
Proof.
  split; [intros llm; apply generate_rag_answer_never_raises|].
  intros llm Hfail. unfold generate_rag_answer, could_not_generate.
  destruct (client self) as [cl|] eqn:Hcl.
  2:{ exists service_not_available, []. repeat split. }
  destruct relevant_chunks as [|c rest].
  { exists no_relevant_context, []. repeat split. }
  set (chunks := c :: rest).
  unfold _create_rag_prompts, _generate_completion. rewrite Hcl.
  unfold chat_completions_create, mbind, io_bind.
  cbn [bind try_except run].
  match goal with |- context [llm ?r] => set (req := r) end.
  specialize (Hfail req). unfold upstream_failure in Hfail.
  destruct (llm req) as [e|[response|]]; cbn [bind try_except run].
  - eexists _, [req]. split; [reflexivity|].
    repeat split. right. exists e. reflexivity.
  - destruct (choices response) as [|c0 ?]; cbn [bind try_except run].
    + eexists _, [req]. split; [reflexivity|].
      repeat split. left. reflexivity.
    + apply negb_true_iff in Hfail. rewrite Hfail. cbn [try_except run].
      eexists _, [req]. split; [reflexivity|].
      repeat split. left. reflexivity.
  - eexists _, [req]. split; [reflexivity|].
    repeat split. left. reflexivity.
Qed.
End ServiceFacts.

(** An instance: the example service and no chunk. *)
Lemma generate_rag_answer_no_chunks_witness :
  generate_rag_answer example_service "What is AI?" [] "doc1" 0.3%float 500
  = Return no_relevant_context.
Proof.
  apply (generate_rag_answer_no_chunks example_service "What is AI?" "doc1"
           0.3%float 500).
  simpl. discriminate.
Defined.

(** An instance: the call to the language model raises. *)
Lemma generate_rag_answer_upstream_failure_witness :
  exists a sent,
    run (fun _ => Raises (mkException "APIConnectionError" "Connection error."))
      (generate_rag_answer example_service
         "What is AI?" [mkChunk "c1" "AI is a field." 0.9%float] "doc1"
         0.3%float 500)
    = (Returned a, sent)
    /\ could_not_generate example_service
         [mkChunk "c1" "AI is a field." 0.9%float] a.
Proof.
  apply (proj2 (generate_rag_answer_upstream_failure example_service
                  "What is AI?" [mkChunk "c1" "AI is a field." 0.9%float]
                  "doc1" 0.3%float 500)).
  intros req. reflexivity.
Defined.

(** What that call returns, evaluated. *)
Example generate_rag_answer_on_exception :
  fst (run (fun _ => Raises (mkException "APIConnectionError"
                               "Connection error."))
         (generate_rag_answer example_service
            "What is AI?" [mkChunk "c1" "AI is a field." 0.9%float] "doc1"
            0.3%float 500))
  = Returned (mkAnswer "Error generating answer: Connection error."
                0%float [] 1 None).
Proof. vm_compute. reflexivity. Qed.

(** ** The vector cache *)

Section CacheFacts.
Context {F : Type} `{Faiss F} {CachedChunk Metadata Time : Type}.
Import VectorCache.
Local Abbreviation world := (World CachedChunk Metadata Time).
Local Abbreviation cache := (t CachedChunk Metadata Time).
Local Abbreviation entry := (Entry CachedChunk Metadata Time).

Lemma fresh_ref_not_allocated (h : gmap ref (ndarray F)) (r : ref)
    (a : ndarray F) :
  h !! r = Some a -> r <> fresh (dom h).
Proof.
  intros Hr ->. apply (is_fresh (dom h)). apply elem_of_dom. eauto.
Qed.

(** [set], statement by statement: the two new arrays, the in-place
    normalisation of the second one, the index, and at the very end the
    one assignment to [self._cache]. *)
Lemma set_unfold (now : Time) (document_id : string) (emb : ref)
    (chs : list CachedChunk) (md : Metadata) (w : world) (arr : ndarray F) :
  heap w !! emb = Some arr ->
  set now document_id emb chs md w
  = match shape arr !! 1%nat with
    | None =>
        (Raised (mkException "IndexError" "tuple index out of range"), w)
    | Some d =>
        let r1 := fresh (dom (heap w)) in
        let h1 := <[r1 := arr]> (heap w) in
        let r2 := fresh (dom h1) in
        let x := mkArray (shape arr) (map to_float32 (data arr)) in
        let h2 := <[r2 := x]> h1 in
        match normalize_L2 x with
        | Raised e => (Raised e, mkWorld h2 (self w))
        | Returned x' =>
            let h3 := <[r2 := x']> h2 in
            match index_add (IndexFlatIP d) x' with
            | Raised e => (Raised e, mkWorld h3 (self w))
            | Returned idx =>
                (Returned tt,
                 mkWorld h3
                   (mkCache
                      (<[document_id := mkEntry emb chs md idx now]>
                         (_cache (self w)))
                      (_initialized (self w)) (_last_refresh (self w))))
            end
        end
    end.
Proof.
  intros Hemb.
  unfold set, mbind, M_bind, seq. unfold deref at 1. rewrite Hemb.
  unfold shape_at. destruct (shape arr !! 1%nat) as [d|];
    [|destruct w; reflexivity].
  unfold ret, copy, mbind, M_bind, seq, deref at 1. rewrite Hemb.
  unfold alloc at 1. cbn [heap self].
  unfold astype_float32, mbind, M_bind, seq, deref at 1. cbn [heap self].
  rewrite lookup_insert_eq. unfold alloc. cbn [heap self].
  unfold normalize_L2_inplace, mbind, M_bind, seq, deref at 1.
  cbn [heap self]. rewrite lookup_insert_eq.
  unfold call at 1.
  destruct (normalize_L2 _) as [x'|e]; [|reflexivity].
  unfold store, deref, call. cbn [heap self]. rewrite lookup_insert_eq.
  destruct (index_add _ x') as [idx|e]; reflexivity.
Qed.

Lemma arrays_kept_two_allocations (h : gmap ref (ndarray F))
    (a1 a2 a3 : ndarray F) (r : ref) (a : ndarray F) :
  h !! r = Some a ->
  let r1 := fresh (dom h) in
  let h1 := <[r1 := a1]> h in
  let r2 := fresh (dom h1) in
  (<[r2 := a2]> h1) !! r = Some a /\
  (<[r2 := a3]> (<[r2 := a2]> h1)) !! r = Some a.
Proof.
  intros Hr r1 h1 r2.
  assert (Hr1 : h1 !! r = Some a).
  { subst h1. rewrite lookup_insert_ne; [assumption|].
    intros E. symmetry in E. revert E. eapply fresh_ref_not_allocated, Hr. }
  assert (Hne : r2 <> r).
  { intros E. symmetry in E. revert E. eapply fresh_ref_not_allocated, Hr1. }
  split; [|rewrite lookup_insert_ne by exact Hne];
    rewrite lookup_insert_ne by exact Hne; exact Hr1.
Qed.

(** What a call of [set] can do to the world. *)
Lemma set_outcome (now : Time) (document_id : string) (emb : ref)
    (chs : list CachedChunk) (md : Metadata) (w : world) (arr : ndarray F) :
  heap w !! emb = Some arr ->
  forall o w', set now document_id emb chs md w = (o, w') ->
  arrays_kept w w' /\
  match o with
  | Raised _ => self w' = self w
  | Returned _ =>
      exists idx,
        self w'
        = mkCache
            (<[document_id := mkEntry emb chs md idx now]> (_cache (self w)))
            (_initialized (self w)) (_last_refresh (self w))
  end.
Proof.
  intros Hemb o w' Hset. rewrite (set_unfold _ _ _ _ _ _ _ Hemb) in Hset.
  destruct (shape arr !! 1%nat) as [d|].
  2:{ injection Hset as <- <-. split; [intros r a Hr; exact Hr | reflexivity]. }
  cbv zeta in Hset.
  destruct (normalize_L2 _) as [x'|e].
  2:{ injection Hset as <- <-. split; [|reflexivity].
      intros r a Hr. cbn [heap].
      eapply (arrays_kept_two_allocations _ arr _ arr), Hr. }
  destruct (index_add _ x') as [idx|e]; injection Hset as <- <-.
  - split; [|exists idx; reflexivity].
    intros r a Hr. cbn [heap]. eapply arrays_kept_two_allocations, Hr.
  - split; [|reflexivity].
    intros r a Hr. cbn [heap]. eapply arrays_kept_two_allocations, Hr.
Qed.

Lemma set_returns_iff (now : Time) (document_id : string) (emb : ref)
    (chs : list CachedChunk) (md : Metadata) (w : world) (arr : ndarray F) :
  heap w !! emb = Some arr ->
  forall o w', set now document_id emb chs md w = (o, w') ->
  (o = Returned tt <-> exists idx, builds_index arr idx).
Proof.
  intros Hemb o w' Hset. rewrite (set_unfold _ _ _ _ _ _ _ Hemb) in Hset.
  unfold builds_index.
  destruct (shape arr !! 1%nat) as [d|].
  2:{ injection Hset as <- <-. split; [discriminate|].
      intros (idx & d & x' & [=] & _). }
  cbv zeta in Hset.
  destruct (normalize_L2 _) as [x'|e].
  2:{ injection Hset as <- <-. split; [discriminate|].
      intros (idx & d' & x' & _ & [=] & _). }
  destruct (index_add _ x') as [idx|e] eqn:Hadd; injection Hset as <- <-.
  - split; [|reflexivity]. intros _. exists idx, d, x'. auto.
  - split; [discriminate|].
    intros (idx & d' & x'' & [= <-] & [= <-] & Hadd'). congruence.
Qed.

(** C1 (amended).  [set] does not look at [len(chunks)]: it returns
    exactly when the array has a second axis and the FAISS calls return,
    and then it installs the entry.  When it raises instead, no entry is
    installed: the cache object (the mapping with every entry in it, and
    the flags) is what it was, and so is every array that existed. *)
Theorem set_raises_without_trace (now : Time) (document_id : string)
    (emb : ref) (chs : list CachedChunk) (md : Metadata) (w : world)
    (arr : ndarray F) (o : Outcome unit) (w' : world) :
  heap w !! emb = Some arr ->
  set now document_id emb chs md w = (o, w') ->
  (o = Returned tt <-> exists idx, builds_index arr idx) /\
  (o = Returned tt ->
     exists idx,
       self w'
       = mkCache
           (<[document_id := mkEntry emb chs md idx now]> (_cache (self w)))
           (_initialized (self w)) (_last_refresh (self w))) /\
  (forall e, o = Raised e ->
     self w' = self w /\ arrays_kept w w' /\
     forall d, get (self w') d = get (self w) d).
Proof.
  intros Hemb Hset. split; [eapply set_returns_iff; eassumption|].
  destruct (set_outcome _ _ _ _ _ _ _ Hemb _ _ Hset) as [Hkept Hself].
  split.
  - intros ->. exact Hself.
  - intros e ->. repeat split; [assumption | assumption |].
    intros d. rewrite Hself. reflexivity.
Qed.

(** C6.  After a [set] on an array that the libraries take, [get] returns
    an entry with the chunk list and the metadata that were passed, and
    with the caller's own array, whose contents are what they were: the
    normalisation worked on another array. *)
Theorem set_then_get (now : Time) (document_id : string) (emb : ref)
    (chs : list CachedChunk) (md : Metadata) (w : world)
    (arr : ndarray F) (idx : Index) :
  heap w !! emb = Some arr ->
  builds_index arr idx ->
  exists w' e,
    set now document_id emb chs md w = (Returned tt, w') /\
    get (self w') document_id = Some e /\
    chunks e = chs /\ metadata e = md /\ embeddings e = emb /\
    faiss_index e = idx /\ cached_at e = now /\
    heap w' !! embeddings e = Some arr.
Proof.
  intros Hemb (d & x' & Hd & Hnorm & Hadd).
  destruct (set now document_id emb chs md w) as [o w'] eqn:Hset.
  pose proof (set_outcome _ _ _ _ _ _ _ Hemb _ _ Hset) as [Hkept Hself].
  rewrite (set_unfold _ _ _ _ _ _ _ Hemb), Hd in Hset. cbv zeta in Hset.
  rewrite Hnorm, Hadd in Hset. injection Hset as <- <-.
  eexists _, (mkEntry emb chs md idx now). split; [reflexivity|].
  cbn [self heap]. unfold get. cbn [_cache].
  rewrite lookup_insert_eq. repeat split.
  cbn [embeddings]. eapply arrays_kept_two_allocations, Hemb.
Qed.

(** Other keys and the flags are not touched by [set]. *)
Lemma set_other_keys (now : Time) (document_id : string) (emb : ref)
    (chs : list CachedChunk) (md : Metadata) (w : world) (arr : ndarray F)
    (o : Outcome unit) (w' : world) (d : string) :
  heap w !! emb = Some arr ->
  set now document_id emb chs md w = (o, w') ->
  d <> document_id ->
  get (self w') d = get (self w) d /\
  is_initialized (self w') = is_initialized (self w) /\
  _last_refresh (self w') = _last_refresh (self w).
Proof.
  intros Hemb Hset Hne.
  destruct (set_outcome _ _ _ _ _ _ _ Hemb _ _ Hset) as [_ Hself].
  destruct o as [[]|e].
  - destruct Hself as [idx ->]. unfold get, is_initialized. cbn.
    rewrite lookup_insert_ne by congruence. auto.
  - rewrite Hself. auto.
Qed.

(** C7.  After [clear] no id is cached, [get] finds nothing, the cache is
    not initialized and [_last_refresh] is [None]. *)
Theorem clear_empties (c : cache) (document_id : string) :
  is_cached (clear c) document_id = false /\
  get (clear c) document_id = None /\
  is_initialized (clear c) = false /\
  _last_refresh (clear c) = None /\
  _cache (clear c) = ∅.
Proof.
  unfold is_cached, get, is_initialized, clear. cbn [_cache _initialized
    _last_refresh].
  split; [|repeat split].
  rewrite dom_empty_L. apply bool_decide_eq_false. set_solver.
Qed.

(** [is_cached] and [get] agree on every cache object. *)
Lemma is_cached_get (c : cache) (document_id : string) :
  is_cached c document_id = true <-> get c document_id <> None.
Proof.
  unfold is_cached, get. rewrite bool_decide_eq_true, elem_of_dom.
  rewrite <- not_eq_None_Some. reflexivity.
Qed.

(** C10.  In every state that a sequence of public operations leads to
    from a new cache, [is_cached] answers true for an id exactly when
    [get] returns an entry for it. *)
Theorem is_cached_iff_get (h : gmap ref (ndarray F))
    (ops : list (Op CachedChunk Metadata Time)) (document_id : string) :
  let w := perform_all ops (mkWorld h __init__) in
  is_cached (self w) document_id = true
  <-> exists e, get (self w) document_id = Some e.
Proof.
  intros w. rewrite is_cached_get. split.
  - intros Hne. destruct (get (self w) document_id) as [e|]; [eauto|].
    congruence.
  - intros [e ->]. discriminate.
Qed.
End CacheFacts.

(** With the example library a two-dimensional array is always taken. *)
Lemma flat_builds_index (n d : nat) (buffer : list float) :
  VectorCache.builds_index (mkArray [n; d] buffer)
    (mkFlatIndex d n (renorm_rows n d buffer)).
Proof.
  exists d, (mkArray [n; d] (renorm_rows n d buffer)).
  split; [reflexivity|]. split.
  - simpl. rewrite map_id. reflexivity.
  - simpl. rewrite Nat.eqb_refl. reflexivity.
Qed.

(** An instance: two rows, two chunks. *)
Lemma set_then_get_witness :
  exists w' e,
    VectorCache.set 7%nat "doc1" 0%nat ["first"; "second"] "meta"
      (example_world two_rows) = (Returned tt, w') /\
    VectorCache.get (VectorCache.self w') "doc1" = Some e /\
    VectorCache.chunks e = ["first"; "second"] /\
    VectorCache.metadata e = "meta" /\
    VectorCache.embeddings e = 0%nat /\
    VectorCache.faiss_index e
    = mkFlatIndex 3 2 (renorm_rows 2 3 [3; 0; 4; 0; 2; 0]%float) /\
    VectorCache.cached_at e = 7%nat /\
    VectorCache.heap w' !! VectorCache.embeddings e = Some two_rows.
Proof.
  apply (set_then_get 7%nat "doc1" 0%nat ["first"; "second"] "meta"
           (example_world two_rows) two_rows).
  - reflexivity.
  - apply flat_builds_index.
Defined.

(** The index of that entry holds the normalised rows, the caller's array
    keeps its own. *)
Example set_normalises_a_copy :
  let w' := snd (VectorCache.set 7%nat "doc1" 0%nat ["first"; "second"]
                   "meta" (example_world two_rows)) in
  (index_xb ∘ VectorCache.faiss_index)
    <$> VectorCache.get (VectorCache.self w') "doc1"
  = Some [0.60000000000000009; 0; 0.80000000000000004; 0; 1; 0]%float
  /\ data <$> VectorCache.heap w' !! 0%nat = Some [3; 0; 4; 0; 2; 0]%float.
Proof. split; vm_compute; reflexivity. Qed.

(** An instance: an array with one axis, for which [shape[1]] raises. *)
Lemma set_raises_without_trace_witness :
  VectorCache.self
    (snd (VectorCache.set 7%nat "doc1" 0%nat ["first"] "meta"
            (example_world one_axis)))
  = VectorCache.self (example_world one_axis).
Proof.
  refine (proj1 (proj2 (proj2 (set_raises_without_trace 7%nat "doc1" 0%nat
                                 ["first"] "meta" (example_world one_axis)
                                 one_axis _ _ _ _))
                   (mkException "IndexError" "tuple index out of range") _)).
  - reflexivity.
  - apply surjective_pairing.
  - vm_compute. reflexivity.
Defined.

(** C1.  The claim makes [set] fail when [len(vectors) != len(chunks)].
    The code has no such check: two vectors with one chunk are cached, and
    the entry that was under the key is replaced. *)
Lemma set_takes_mismatched_lengths :
  let w1 := snd (VectorCache.set 7%nat "doc1" 0%nat ["first"; "second"]
                   "meta" (example_world two_rows)) in
  let r := VectorCache.set 8%nat "doc1" 0%nat ["only"] "meta" w1 in
  shape two_rows = [2; 3]%nat /\
  length ["only"] = 1%nat /\
  VectorCache.chunks <$> VectorCache.get (VectorCache.self w1) "doc1"
  = Some ["first"; "second"] /\
  fst r = Returned tt /\
  VectorCache.chunks <$> VectorCache.get (VectorCache.self (snd r)) "doc1"
  = Some ["only"].
Proof. repeat split; vm_compute; reflexivity. Qed.

(** ** The singleton accessor *)

Section SingletonFacts.
Import Singleton.

Lemma inv_init (n : nat) : Inv (init n).
Proof.
  split; simpl.
  - lia.
  - discriminate.
  - reflexivity.
  - intros i p Hp. apply lookup_replicate in Hp as [-> _]. exact I.
  - intros i p Hp. apply lookup_replicate in Hp as [-> _]. discriminate.
  - intros i j p q Hp _. apply lookup_replicate in Hp as [-> _]. discriminate.
Qed.

(** The callers after caller [i] moved to [p']. *)
Lemma callers_after (l : list pc) (i j : nat) (p' q : pc) :
  <[i := p']> l !! j = Some q ->
  (j = i /\ q = p') \/ (j <> i /\ l !! j = Some q).
Proof.
  intros Hq. apply list_lookup_insert_Some in Hq as [(-> & -> & _)|[? ?]];
    [left | right]; auto.
Qed.

(** One obligation of the invariant after a step of caller [i]: split on
    whether a caller is [i] itself, bring in what the invariant said before
    the step about each of the others (its own facts, the lock, and that
    it is not in the critical section together with [i]), and decide. *)
Ltac after_step Hi Hpc Hlock Hmutex :=
  let Hmi := fresh "Hmi" in
  pose proof (fun j q => Hmutex _ j _ q Hi) as Hmi;
  cbn [in_cs] in Hmi;
  intros;
  repeat match goal with
  | H : <[_ := _]> _ !! _ = Some _ |- _ =>
      apply callers_after in H as [[-> ->]|[? H]]
  end;
  try match goal with
  | H : callers _ !! ?j = Some _, H' : callers _ !! ?k = Some _
    |- ?j = ?k => solve [eapply (Hmutex _ _ _ _ H H'); assumption]
  end;
  repeat match goal with
  | H : callers _ !! ?j = Some ?q |- _ =>
      pose proof (Hpc j q H); pose proof (Hlock j q H);
      pose proof (Hmi j q H); revert H
  end;
  intros;
  repeat match goal with
  | q : pc |- _ => destruct q
  end;
  cbn [in_cs pc_ok] in *;
  try solve [ exact I | reflexivity | discriminate | congruence | lia
            | intuition (try discriminate; try congruence; try lia) ].

Lemma step_inv (i : nat) (s s' : State) :
  Inv s -> step i s = Some s' -> Inv s'.
Proof.
  intros [Hcount Hinst Hunl Hpc Hlock Hmutex]. unfold step.
  destruct (callers s !! i) as [p|] eqn:Hi; [|discriminate].
  pose proof (Hpc i p Hi) as Hp. pose proof (Hlock i p Hi) as Hl.
  destruct (_vector_cache_instance s) as [obj|] eqn:Hg;
    [destruct (Hinst obj eq_refl) as [-> Hone]|];
    (destruct p; cbn [pc_ok in_cs] in Hp, Hl;
     [ | destruct (_cache_lock s) eqn:Hlk; [discriminate|] | | | | | | ];
     try discriminate; intros [= <-];
     split; unfold at_pc;
     cbn [_vector_cache_instance _cache_lock constructed callers];
     rewrite ?Hg; after_step Hi Hpc Hlock Hmutex).
Qed.

Lemma exec_inv (schedule : list nat) :
  forall s, Inv s -> Inv (exec schedule s).
Proof.
  unfold exec. induction schedule as [|i rest IH]; intros s Hs; [exact Hs|].
  cbn [fold_left]. apply IH.
  destruct (step i s) as [s'|] eqn:Hstep; [|exact Hs].
  exact (step_inv i s s' Hs Hstep).
Qed.

(** A call that finds the global set returns its value and builds
    nothing, whatever the other callers are doing. *)
Lemma call_alone_later (s : State) (obj : nat) :
  _vector_cache_instance s = Some obj ->
  call_alone s
  = mkState (Some obj) (_cache_lock s) (constructed s)
      (callers s ++ [Done (Some obj)])%list.
Proof.
  destruct s as [g lk k l]. cbn [_vector_cache_instance _cache_lock
    constructed callers]. intros ->.
  unfold call_alone, exec, arrive. cbn [_vector_cache_instance _cache_lock
    constructed callers].
  set (i := length l).
  assert (Hins : forall p q : pc,
             <[i := q]> (l ++ [p])%list = (l ++ [q])%list).
  { intros p q. subst i. rewrite <- (Nat.add_0_r (length l)).
    rewrite insert_app_r. reflexivity. }
  assert (Hlook : forall p : pc, (l ++ [p])%list !! i = Some p).
  { intros p. apply list_lookup_middle. reflexivity. }
  assert (S1 : step i (mkState (Some obj) lk k (l ++ [Check])%list)
               = Some (mkState (Some obj) lk k (l ++ [Read])%list)).
  { unfold step, at_pc. cbn [callers _vector_cache_instance _cache_lock
      constructed]. rewrite Hlook, Hins. reflexivity. }
  assert (S2 : step i (mkState (Some obj) lk k (l ++ [Read])%list)
               = Some (mkState (Some obj) lk k
                         (l ++ [Done (Some obj)])%list)).
  { unfold step, at_pc. cbn [callers _vector_cache_instance _cache_lock
      constructed]. rewrite Hlook, Hins. reflexivity. }
  assert (S3 : step i (mkState (Some obj) lk k
                         (l ++ [Done (Some obj)])%list) = None).
  { unfold step. cbn [callers]. rewrite Hlook. reflexivity. }
  cbn [replicate fold_left]. rewrite S1. cbn [default from_option id].
  rewrite S2. cbn [default from_option id].
  repeat (rewrite S3; cbn [default from_option id]). reflexivity.
Qed.

(** Someone holds the lock whenever it is taken. *)
Lemma holder_step (i : nat) (s s' : State) :
  Inv s -> lock_has_holder s -> step i s = Some s' -> lock_has_holder s'.
Proof.
  unfold lock_has_holder. intros HInv Hholder. unfold step.
  destruct (callers s !! i) as [p|] eqn:Hi; [|discriminate].
  pose proof (lookup_lt_Some _ _ _ Hi) as Hlt.
  assert (Hother : forall q j pj,
            callers s !! j = Some pj -> in_cs pj = true ->
            (in_cs p = false \/ in_cs q = true) ->
            exists j' p', <[i := q]> (callers s) !! j' = Some p' /\
                          in_cs p' = true).
  { intros q j pj Hj Hcs Hq. destruct (decide (j = i)) as [->|Hne].
    - exists i, q. rewrite list_lookup_insert_eq by exact Hlt.
      split; [reflexivity|]. destruct Hq as [Hq|Hq]; [|exact Hq].
      congruence.
    - exists j, pj. rewrite list_lookup_insert_ne by congruence. auto. }
  destruct p; cbn [in_cs] in Hother.
  - intros [= <-]. unfold at_pc. cbn [_cache_lock callers]. intros Hl.
    destruct (Hholder Hl) as (j & pj & Hj & Hcs).
    eapply Hother; eauto.
  - destruct (_cache_lock s); [discriminate|]. intros [= <-].
    cbn [_cache_lock callers]. intros _. exists i, Recheck.
    rewrite list_lookup_insert_eq by exact Hlt. auto.
  - intros [= <-]. unfold at_pc. cbn [_cache_lock callers]. intros Hl.
    destruct (Hholder Hl) as (j & pj & Hj & Hcs).
    eapply Hother; eauto. right.
    destruct (_vector_cache_instance s); reflexivity.
  - intros [= <-]. cbn [_cache_lock callers]. intros Hl.
    destruct (Hholder Hl) as (j & pj & Hj & Hcs).
    eapply Hother; eauto.
  - intros [= <-]. cbn [_cache_lock callers]. intros Hl.
    destruct (Hholder Hl) as (j & pj & Hj & Hcs).
    eapply Hother; eauto.
  - intros [= <-]. cbn [_cache_lock callers]. discriminate.
  - intros [= <-]. unfold at_pc. cbn [_cache_lock callers]. intros Hl.
    destruct (Hholder Hl) as (j & pj & Hj & Hcs).
    eapply Hother; eauto.
  - discriminate.
Qed.

Lemma holder_exec (schedule : list nat) :
  forall s, Inv s -> lock_has_holder s -> lock_has_holder (exec schedule s).
Proof.
  unfold exec. induction schedule as [|i rest IH]; intros s HInv Hh;
    [exact Hh|].
  cbn [fold_left]. destruct (step i s) as [s'|] eqn:Hstep;
    cbn [default from_option id].
  - apply IH; [exact (step_inv i s s' HInv Hstep)|].
    exact (holder_step i s s' HInv Hh Hstep).
  - apply IH; assumption.
Qed.

(** The first call in a state where the global is unset and the lock is
    free: it takes the lock, builds an object, assigns it to the global,
    releases the lock and returns the object. *)
Lemma call_alone_first (s : State) :
  _vector_cache_instance s = None -> _cache_lock s = false ->
  call_alone s
  = mkState (Some (constructed s)) false (S (constructed s))
      (callers s ++ [Done (Some (constructed s))])%list.
Proof.
  destruct s as [g lk k l]. cbn [_vector_cache_instance _cache_lock
    constructed callers]. intros -> ->.
  unfold call_alone, exec, arrive. cbn [_vector_cache_instance _cache_lock
    constructed callers].
  set (i := length l).
  assert (Hins : forall p q : pc,
             <[i := q]> (l ++ [p])%list = (l ++ [q])%list).
  { intros p q. subst i. rewrite <- (Nat.add_0_r (length l)).
    rewrite insert_app_r. reflexivity. }
  assert (Hlook : forall p : pc, (l ++ [p])%list !! i = Some p).
  { intros p. apply list_lookup_middle. reflexivity. }
  assert (Hstep : forall g lk k p,
            step i (mkState g lk k (l ++ [p])%list)
            = match p with
              | Check =>
                  Some (mkState g lk k
                          (l ++ [match g with
                                 | Some _ => Read
                                 | None => Acquire
                                 end])%list)
              | Acquire =>
                  if lk then None
                  else Some (mkState g true k (l ++ [Recheck])%list)
              | Recheck =>
                  Some (mkState g lk k
                          (l ++ [match g with
                                 | Some _ => Release
                                 | None => Construct
                                 end])%list)
              | Construct => Some (mkState g lk (S k) (l ++ [Assign k])%list)
              | Assign obj => Some (mkState (Some obj) lk k (l ++ [Release])%list)
              | Release => Some (mkState g false k (l ++ [Read])%list)
              | Read => Some (mkState g lk k (l ++ [Done g])%list)
              | Done _ => None
              end).
  { intros g' lk' k' p. unfold step, at_pc.
    cbn [callers _vector_cache_instance _cache_lock constructed].
    rewrite Hlook. destruct p; rewrite ?Hins; reflexivity. }
  cbn [replicate fold_left].
  repeat (rewrite Hstep; cbn [default from_option id]). reflexivity.
Qed.

(** A caller that has not returned is not alone in waiting: it can move,
    or the holder of the lock can. *)
Lemma some_caller_moves (s : State) (i : nat) (p : pc) :
  lock_has_holder s ->
  callers s !! i = Some p -> (forall result, p <> Done result) ->
  exists j s', step j s = Some s'.
Proof.
  intros Hholder Hi Hnot.
  assert (Hcs : forall j q, callers s !! j = Some q -> in_cs q = true ->
                  exists s', step j s = Some s').
  { intros j q Hj Hq. unfold step. rewrite Hj.
    destruct q; try discriminate; eauto. }
  destruct p.
  - exists i. unfold step. rewrite Hi. eauto.
  - destruct (_cache_lock s) eqn:Hl.
    + destruct (Hholder Hl) as (j & q & Hj & Hq).
      exists j. eapply Hcs; eauto.
    + exists i. unfold step. rewrite Hi, Hl. eauto.
  - exists i. eapply Hcs; eauto.
  - exists i. eapply Hcs; eauto.
  - exists i. eapply Hcs; eauto.
  - exists i. eapply Hcs; eauto.
  - exists i. unfold step. rewrite Hi. eauto.
  - exfalso. eapply Hnot. reflexivity.
Qed.

(** Every step takes the moving caller closer to its return. *)
Lemma rank_insert (l : list pc) (q : pc) :
  forall (i : nat) (p : pc),
    l !! i = Some p ->
    (sum_list_with rank (<[i := q]> l) + rank p
     = sum_list_with rank l + rank q)%nat.
Proof.
  induction l as [|a l IH]; intros [|i] p Hi; try discriminate.
  - injection Hi as ->. cbn [insert list_insert sum_list_with]. lia.
  - cbn [lookup list_lookup] in Hi. specialize (IH i p Hi).
    change (<[S i := q]> (a :: l)) with (a :: <[i := q]> l).
    cbn [sum_list_with]. lia.
Qed.

Lemma step_remaining (i : nat) (s s' : State) :
  step i s = Some s' -> (remaining s' < remaining s)%nat.
Proof.
  unfold step, remaining.
  destruct (callers s !! i) as [p|] eqn:Hi; [|discriminate].
  assert (Hsum : forall q, (rank q < rank p)%nat ->
            (sum_list_with rank (<[i := q]> (callers s))
             < sum_list_with rank (callers s))%nat).
  { intros q Hq. pose proof (rank_insert (callers s) q i p Hi). lia. }
  destruct p; try discriminate;
    try (destruct (_cache_lock s); [discriminate|]);
    intros [= <-]; unfold at_pc; cbn [callers]; apply Hsum;
    try (destruct (_vector_cache_instance s)); cbn [rank]; lia.
Qed.

Lemma step_callers_length (i : nat) (s s' : State) :
  step i s = Some s' -> length (callers s') = length (callers s).
Proof.
  unfold step.
  destruct (callers s !! i) as [p|]; [|discriminate].
  destruct p; try discriminate;
    try (destruct (_cache_lock s); [discriminate|]);
    intros [= <-]; unfold at_pc; cbn [callers]; apply length_insert.
Qed.

Lemma exec_callers_length (schedule : list nat) :
  forall s, length (callers (exec schedule s)) = length (callers s).
Proof.
  unfold exec. induction schedule as [|i rest IH]; intros s; [reflexivity|].
  cbn [fold_left]. rewrite IH.
  destruct (step i s) as [s'|] eqn:Hstep; [|reflexivity].
  exact (step_callers_length i s s' Hstep).
Qed.

Lemma rank_zero (p : pc) : rank p = 0%nat -> exists result, p = Done result.
Proof. destruct p; try discriminate. eauto. Qed.

Lemma nothing_remaining (l : list pc) :
  sum_list_with rank l = 0%nat ->
  forall i p, l !! i = Some p -> rank p = 0%nat.
Proof.
  induction l as [|a l IH]; intros Hsum [|i] p Hi; try discriminate;
    cbn [sum_list_with] in Hsum.
  - injection Hi as <-. lia.
  - apply (IH ltac:(lia) i p Hi).
Qed.

Lemma something_remaining (l : list pc) :
  sum_list_with rank l <> 0%nat ->
  exists i p, l !! i = Some p /\ rank p <> 0%nat.
Proof.
  induction l as [|a l IH]; cbn [sum_list_with]; intros Hsum; [lia|].
  destruct (Nat.eq_dec (rank a) 0%nat) as [Ha|Ha].
  - destruct IH as (i & p & Hi & Hp); [lia|]. exists (S i), p. auto.
  - exists 0%nat, a. auto.
Qed.

(** From every state of the protocol the callers can be run until each
    of them has returned: the steps left are bounded by [remaining]. *)
Lemma callers_all_return (k : nat) :
  forall s,
    Inv s -> lock_has_holder s -> (remaining s <= k)%nat ->
    exists rest,
      forall i p, callers (exec rest s) !! i = Some p -> rank p = 0%nat.
Proof.
  induction k as [|k IH]; intros s HInv Hholder Hk.
  - exists []. apply nothing_remaining. change (remaining s = 0%nat). lia.
  - destruct (Nat.eq_dec (remaining s) 0%nat) as [Hz|Hnz].
    + exists []. apply nothing_remaining. exact Hz.
    + destruct (something_remaining _ Hnz) as (i & p & Hi & Hp).
      destruct (some_caller_moves s i p Hholder Hi) as (j & s' & Hstep).
      { intros result ->. apply Hp. reflexivity. }
      pose proof (step_remaining j s s' Hstep) as Hlt.
      destruct (IH s' (step_inv j s s' HInv Hstep)
                  (holder_step j s s' HInv Hholder Hstep) ltac:(lia))
        as [rest Hrest].
      exists (j :: rest). unfold exec in *. cbn [fold_left].
      rewrite Hstep. exact Hrest.
Qed.

(** C9.  Callers of [get_vector_cache] interleaved in any way, from a new
    process.  One instance: at most one [VectorCache] object is ever
    built, and every caller that has returned has got that first object,
    which is the value of the global from then on.  The first call
    constructs it: a call that runs before the other callers have started
    builds object 0, assigns it to the global and returns it.  Later calls
    return it: once the global is set, a call returns object 0 and builds
    nothing.  Construction is race-free: callers in the locked region
    exclude each other; as long as a caller has not returned, some caller
    can move; every move uses up one of the accesses that remain; and the
    callers can all be run to their returns, each with object 0, with the
    lock free and one object built. *)
Theorem get_vector_cache_singleton (n : nat) (schedule : list nat) :
  let s := exec schedule (init n) in
  (constructed s <= 1)%nat /\
  (forall i result,
     callers s !! i = Some (Done result) ->
     result = Some 0%nat /\ _vector_cache_instance s = Some 0%nat /\
     constructed s = 1%nat) /\
  (forall i j p q,
     callers s !! i = Some p -> callers s !! j = Some q ->
     in_cs p = true -> in_cs q = true -> i = j) /\
  call_alone (init n)
  = mkState (Some 0%nat) false 1
      (replicate n Check ++ [Done (Some 0%nat)])%list /\
  (forall obj,
     _vector_cache_instance s = Some obj ->
     call_alone s
     = mkState (Some 0%nat) (_cache_lock s) (constructed s)
         (callers s ++ [Done (Some 0%nat)])%list) /\
  (forall i p,
     callers s !! i = Some p -> (forall result, p <> Done result) ->
     exists j s', step j s = Some s') /\
  (forall j s', step j s = Some s' -> (remaining s' < remaining s)%nat) /\
  (exists rest,
     let s' := exec rest s in
     callers s' = replicate n (Done (Some 0%nat)) /\
     _cache_lock s' = false /\
     (n <> 0%nat ->
      _vector_cache_instance s' = Some 0%nat /\ constructed s' = 1%nat)).
Proof.
  intros s.
  pose proof (exec_inv schedule (init n) (inv_init n)) as HInv.
  assert (Hholder : lock_has_holder s)
    by (apply holder_exec; [apply inv_init | discriminate]).
  fold s in HInv.
  pose proof HInv as [Hcount Hinst _ Hpc _ Hmutex].
  split; [exact Hcount|]. split.
  { intros i result Hi. destruct (Hpc i _ Hi) as [-> Hg].
    destruct (Hinst _ Hg) as [_ Hone]. auto. }
  split; [exact Hmutex|]. split.
  { apply (call_alone_first (init n)); reflexivity. }
  split.
  { intros obj Hg. destruct (Hinst obj Hg) as [-> _].
    apply call_alone_later. exact Hg. }
  split.
  { intros i p. apply some_caller_moves. exact Hholder. }
  split.
  { intros j s'. apply step_remaining. }
  destruct (callers_all_return (remaining s) s HInv Hholder (le_n _))
    as [rest Hrest].
  exists rest. cbn zeta.
  pose proof (exec_inv rest s HInv) as HInv'.
  pose proof (holder_exec rest s HInv Hholder) as Hholder'.
  set (s' := exec rest s) in *.
  assert (Hdone : forall i p, callers s' !! i = Some p ->
                    p = Done (Some 0%nat) /\
                    _vector_cache_instance s' = Some 0%nat).
  { intros i p Hi. destruct (rank_zero p (Hrest i p Hi)) as [result ->].
    destruct (inv_pc s' HInv' i _ Hi) as [-> Hg]. auto. }
  assert (Hlen : length (callers s') = n).
  { unfold s', s. rewrite !exec_callers_length. apply length_replicate. }
  split.
  { symmetry. apply replicate_as_Forall. split; [exact Hlen|].
    apply Forall_lookup. intros i p Hi. symmetry. apply (Hdone i p Hi). }
  split.
  { destruct (_cache_lock s') eqn:Hl; [|reflexivity].
    destruct (Hholder' Hl) as (j & q & Hj & Hq).
    destruct (Hdone j q Hj) as [-> _]. discriminate. }
  intros Hn.
  destruct (lookup_lt_is_Some_2 (callers s') 0%nat) as [p Hp]; [lia|].
  destruct (Hdone 0%nat p Hp) as [_ Hg].
  split; [exact Hg|]. apply (inv_instance s' HInv' _ Hg).
Qed.

(** The first call, alone, builds the object and returns it; a second call
    returns the same object. *)
Example first_call_constructs :
  call_alone (init 0) = mkState (Some 0%nat) false 1 [Done (Some 0%nat)] /\
  call_alone (call_alone (init 0))
  = mkState (Some 0%nat) false 1 [Done (Some 0%nat); Done (Some 0%nat)].
Proof. split; vm_compute; reflexivity. Qed.

(** Two callers race: both see [None] at the first check; the second one
    to take the lock finds the global set at the second check. *)
Example concurrent_first_access :
  exec [0; 1; 0; 1; 0; 0; 1; 0; 0; 1; 0; 1; 1; 1; 1]%nat (init 2)
  = mkState (Some 0%nat) false 1 [Done (Some 0%nat); Done (Some 0%nat)].
Proof. vm_compute. reflexivity. Qed.
End SingletonFacts.


(* ===================================================================== *)
(** * Part III: further properties of the code *)
(* ===================================================================== *)

Set Warnings "-clear-no-such-hyp".

(** ** The answer operation: requests and the success path *)

Section ServiceExtras.
Context {F : Type} `{PyFloat F}.

(** The one request that [generate_rag_answer] can send. *)
Lemma generate_rag_answer_run (self : AzureOpenAIService) (cl : AzureOpenAI)
    (question : string) (c : Chunk F) (rest : list (Chunk F))
    (document_id : string) (temperature : F) (max_tokens : Z)
    (llm : Request F -> Reply) :
  client self = Some cl ->
  let chunks := c :: rest in
  let req :=
    mkRequest (deployment_name self)
      [mkChatMessage "system" system_prompt_text;
       mkChatMessage "user"
         (user_prompt_text question
            (_build_context chunks default_max_length))]
      temperature max_tokens (Some f0_8) (Some f0_0) (Some f0_0) in
  run llm (generate_rag_answer self question chunks document_id temperature
             max_tokens)
  = (Returned
       match llm req with
       | Raises e =>
           mkAnswer ("Error generating answer: " ++ exc_str e) f0_0 []
             (Z.of_nat (length chunks)) None
       | Responds response =>
           let content :=
             match response with
             | Some r =>
                 match choices r with
                 | c0 :: _ => message_content (message c0)
                 | [] => None
                 end
             | None => None
             end in
           if truthy content
           then mkAnswer (strip (default "" content))
                  (_estimate_confidence chunks)
                  (map source_of (take 3 chunks))
                  (Z.of_nat (length chunks)) (Some (model_name self))
           else mkAnswer
                  "Unable to generate response - empty response from Azure OpenAI"
                  f0_0 [] (Z.of_nat (length chunks)) None
       end,
     [req]).
Proof.
  intros Hcl chunks req. subst chunks.
  unfold generate_rag_answer. rewrite Hcl. cbv beta iota.
  unfold _create_rag_prompts, _generate_completion. rewrite Hcl.
  unfold chat_completions_create, mbind, io_bind.
  cbn [bind try_except run]. fold req.
  destruct (llm req) as [e|[r|]]; cbn [bind try_except run];
    [reflexivity | | reflexivity].
  destruct (choices r) as [|c0 ?]; cbn [bind try_except run];
    [reflexivity|].
  destruct (truthy (message_content (message c0))); reflexivity.
Qed.

(** [generate_rag_answer] sends at most one request; none without a
    client, none without chunks; and the request it sends names the
    deployment, carries the system prompt and then the user prompt built
    from the question and the assembled context, with the sampling
    parameters of the call and [top_p = 0.8]. *)
Theorem generate_rag_answer_requests (self : AzureOpenAIService)
    (question : string) (relevant_chunks : list (Chunk F))
    (document_id : string) (temp : F) (max_tok : Z)
    (llm : Request F -> Reply) :
  let sent :=
    snd (run llm (generate_rag_answer self question relevant_chunks
                    document_id temp max_tok)) in
  (length sent <= 1)%nat /\
  (length sent = 1%nat <-> client self <> None /\ relevant_chunks <> []) /\
  (forall req, In req sent ->
     model _ req = deployment_name self /\
     messages _ req
     = [mkChatMessage "system" system_prompt_text;
        mkChatMessage "user"
          (user_prompt_text question
             (_build_context relevant_chunks default_max_length))] /\
     temperature _ req = temp /\
     max_tokens _ req = max_tok /\
     top_p _ req = Some f0_8).
Proof.
  cbv zeta. destruct (client self) as [cl|] eqn:Hcl.
  - destruct relevant_chunks as [|c rest].
    + unfold generate_rag_answer. rewrite Hcl.
      cbn [try_except run snd length].
      split; [lia|]. split; [|intros ? []].
      split; [discriminate|]. intros [_ Hne]. congruence.
    + rewrite (generate_rag_answer_run self cl question c rest document_id
                 temp max_tok llm Hcl).
      cbn [snd length]. split; [lia|]. split.
      * split; [intros _; split; discriminate | reflexivity].
      * intros req [<-|[]]. repeat split.
  - unfold generate_rag_answer. rewrite Hcl. cbn [run snd length].
    split; [lia|]. split; [|intros ? []].
    split; [discriminate|]. intros [Hne _]. congruence.
Qed.

(** When the language model answers with text, the result carries that
    text stripped, the confidence of all the chunks, the number of all the
    chunks, the model name, and one source for each of the first
    [min(3, n)] chunks, in their order, with the chunk's id and score. *)
Theorem generate_rag_answer_success (self : AzureOpenAIService)
    (cl : AzureOpenAI) (question : string) (c : Chunk F)
    (rest : list (Chunk F)) (document_id : string) (temp : F) (max_tok : Z)
    (llm : Request F -> Reply) (ch : ascii) (text : string)
    (others : list Choice) :
  client self = Some cl ->
  (forall req,
     llm req
     = Responds (Some (mkChatCompletion
                         (mkChoice (mkResponseMessage
                                      (Some (String ch text))) :: others)))) ->
  exists a req,
    run llm (generate_rag_answer self question (c :: rest) document_id temp
               max_tok)
    = (Returned a, [req]) /\
    answer a = strip (String ch text) /\
    confidence a = _estimate_confidence (c :: rest) /\
    chunks_retrieved a = Z.of_nat (length (c :: rest)) /\
    model_used a = Some (model_name self) /\
    length (sources a) = Nat.min 3 (length (c :: rest)) /\
    (forall i chunk,
       (i < 3)%nat -> (c :: rest) !! i = Some chunk ->
       exists src,
         sources a !! i = Some src /\
         source_chunk_id _ src = chunk_id chunk /\
         source_similarity_score _ src = similarity_score chunk).
Proof.
  intros Hcl Hllm.
  eexists _, _. split.
  { rewrite (generate_rag_answer_run self cl question c rest document_id
               temp max_tok llm Hcl).
    rewrite Hllm. cbn [choices message message_content truthy default
      from_option]. reflexivity. }
  cbn [answer confidence chunks_retrieved model_used sources].
  repeat split.
  - rewrite length_map, length_take. lia.
  - intros i chunk Hi Hchunk. exists (source_of chunk).
    rewrite list_lookup_fmap, lookup_take_lt by exact Hi.
    rewrite Hchunk. repeat split.
Qed.

Lemma substring_length (n : nat) (s : string) :
  String.length (String.substring 0 n s) = Nat.min n (String.length s).
Proof.
  revert n. induction s as [|ch s IH]; intros [|n]; simpl;
    try reflexivity.
  rewrite IH. reflexivity.
Qed.

(** A preview is the text itself when the text has at most 200
    characters, and otherwise 200 characters of it followed by three dots:
    never more than 203 characters. *)
Theorem source_preview_bounded (chunk : Chunk F) :
  len (preview _ (source_of chunk)) <= 203 /\
  (len (text chunk) <= 200 -> preview _ (source_of chunk) = text chunk) /\
  (200 < len (text chunk) ->
   preview _ (source_of chunk) = slice_to 200 (text chunk) ++ "..." /\
   len (preview _ (source_of chunk)) = 203).
Proof.
  unfold source_of. cbn [preview].
  destruct (Z.gtb_spec (len (text chunk)) 200) as [Hlong|Hshort].
  - assert (Hlen : len (slice_to 200 (text chunk) ++ "...") = 203).
    { rewrite len_app. unfold len, slice_to. rewrite substring_length.
      unfold len in Hlong. simpl String.length. lia. }
    split; [lia|]. split; [intros; lia|]. intros _. split; [reflexivity|lia].
  - split; [lia|]. split; [reflexivity|]. intros Hlt. lia.
Qed.

(** Without an API key the constructor raises [ValueError]; with a key but
    without an endpoint it raises [ValueError] too; in both cases before
    any request is sent. *)
Theorem init_requires_credentials (getenv : string -> option string)
    (k e v d : option string) (llm : Request F -> Reply) :
  truthy (py_or k (getenv "AZURE_OPENAI_API_KEY")) = false \/
  truthy (py_or e (getenv "AZURE_OPENAI_ENDPOINT")) = false ->
  exists msg,
    run llm (__init__ (F := F) getenv k e v d)
    = (Raised (mkException "ValueError" msg), []).
Proof.
  unfold __init__.
  destruct (py_or k _) as [[|? ?]|]; simpl;
    destruct (py_or e _) as [[|? ?]|]; simpl;
    intros [Hk|He]; try discriminate; eexists; reflexivity.
Qed.

(** What the constructor returns, when it returns: an object with a
    client, a non-empty key and endpoint (the argument when it is given and
    not empty, else the environment variable), after exactly one request,
    the test request, which was answered. *)
Theorem init_returns (getenv : string -> option string)
    (k e v d : option string) (llm : Request F -> Reply)
    (self : AzureOpenAIService) (sent : list (Request F)) :
  run llm (__init__ getenv k e v d) = (Returned self, sent) ->
  Some (api_key self) = py_or k (getenv "AZURE_OPENAI_API_KEY") /\
  Some (endpoint self) = py_or e (getenv "AZURE_OPENAI_ENDPOINT") /\
  api_key self <> "" /\ endpoint self <> "" /\
  client self
  = Some (mkAzureOpenAI (api_key self) (api_version self) (endpoint self)) /\
  exists req response,
    sent = [req] /\ llm req = Responds response /\
    model _ req = deployment_name self /\
    model_name self
    = match response with
      | Some _ => Some (deployment_name self)
      | None => None
      end.
Proof.
  unfold __init__.
  destruct (py_or k _) as [[|? ?]|]; try discriminate.
  destruct (py_or e _) as [[|? ?]|]; try discriminate.
  unfold _initialize_client, chat_completions_create, mbind, io_bind.
  cbn [bind try_except run api_key endpoint api_version deployment_name
       client model_name].
  match goal with |- context [llm ?r] => set (req := r) end.
  destruct (llm req) as [ex|[r|]] eqn:Hreq; cbn [bind try_except run];
    intros [= <- <-]; cbn [api_key endpoint api_version deployment_name
      client model_name];
    (split; [reflexivity|]; split; [reflexivity|];
     split; [discriminate|]; split; [discriminate|];
     split; [reflexivity|]; eexists req, _;
     split; [reflexivity|]; split; [exact Hreq|]; split; reflexivity).
Qed.

(** When the test request fails, the constructor raises what the request
    raised, and no object comes out. *)
Theorem init_propagates (getenv : string -> option string)
    (k e v d : option string) (llm : Request F -> Reply)
    (ex : PyException) :
  truthy (py_or k (getenv "AZURE_OPENAI_API_KEY")) = true ->
  truthy (py_or e (getenv "AZURE_OPENAI_ENDPOINT")) = true ->
  (forall req, llm req = Raises ex) ->
  exists req, run llm (__init__ getenv k e v d) = (Raised ex, [req]).
Proof.
  unfold __init__. intros Hk He Hllm.
  destruct (py_or k _) as [[|? ?]|]; try discriminate.
  destruct (py_or e _) as [[|? ?]|]; try discriminate.
  unfold _initialize_client, chat_completions_create, mbind, io_bind.
  cbn [bind try_except run]. eexists. rewrite Hllm. reflexivity.
Qed.

(** [test_connection] never raises and sends at most one request.
    Without a client it reports an error without any request; with one it
    reports success whenever the request returns, also when it returns no
    text, and an error with the exception's text when the request raises. *)
Theorem test_connection_reports (self : AzureOpenAIService)
    (llm : Request F -> Reply) :
  exists r sent,
    run llm (test_connection self) = (Returned r, sent) /\
    match client self with
    | None =>
        sent = [] /\
        r = mkConnectionTest "error" "Azure OpenAI client not initialized"
              None
    | Some _ =>
        exists req,
          sent = [req] /\
          match llm req with
          | Raises ex =>
              r = mkConnectionTest "error"
                    ("Azure OpenAI test failed: " ++ exc_str ex) None
          | Responds _ =>
              test_status r = "success" /\
              exists det,
                test_details r = Some det /\ test_response det <> ""
          end
    end.
Proof.
  unfold test_connection. destruct (client self) as [cl|] eqn:Hcl.
  2:{ eexists _, _. split; [reflexivity|]. split; reflexivity. }
  unfold _create_rag_prompts, _generate_completion. rewrite Hcl.
  unfold chat_completions_create, mbind, io_bind.
  cbn [bind try_except run].
  match goal with |- context [llm ?r] => set (req := r) end.
  destruct (llm req) as [ex|[r|]] eqn:Hreq; cbn [bind try_except run].
  - eexists _, _. split; [reflexivity|]. exists req. rewrite Hreq.
    split; reflexivity.
  - destruct (choices r) as [|c0 ?]; cbn [bind try_except run];
      (eexists _, _; split; [reflexivity|]; exists req; rewrite Hreq;
       split; [reflexivity|]; split; [reflexivity|];
       eexists; split; [reflexivity|]; cbn [test_response]).
    + discriminate.
    + destruct (message_content (message c0)) as [[|? ?]|]; discriminate.
  - eexists _, _. split; [reflexivity|]. exists req. rewrite Hreq.
    split; [reflexivity|]. split; [reflexivity|].
    eexists; split; [reflexivity|]. discriminate.
Qed.
End ServiceExtras.

(** ** Context assembly: the loop stops at the first chunk that does not
    fit *)

Lemma total_len_nonneg (parts : list string) : 0 <= total_len parts.
Proof.
  induction parts as [|p parts IH]; simpl; [lia|].
  pose proof (len_nonneg p). lia.
Qed.

Lemma total_len_cons (p : string) (parts : list string) :
  total_len (p :: parts) = len p + total_len parts.
Proof. reflexivity. Qed.

Lemma build_context_loop_stops {F} (max_length : Z)
    (l1 : list (Chunk F)) (tail : list (Chunk F)) :
  forall (i : nat) (parts : list string) (total : Z),
    total + total_len (labelled i l1) <= max_length ->
    match tail with
    | [] => True
    | c :: _ =>
        total + total_len (labelled i l1)
        + len (chunk_text (i + length l1) c) > max_length
    end ->
    build_context_loop max_length i (l1 ++ tail)%list parts total
    = ((parts ++ labelled i l1)%list, total + total_len (labelled i l1)).
Proof.
  induction l1 as [|c l1 IH]; intros i parts total Hfit Hstop.
  - cbn [labelled app length] in *. change (total_len []) with 0 in *.
    rewrite app_nil_r, Z.add_0_r.
    destruct tail as [|c tail]; [reflexivity|].
    rewrite Nat.add_0_r, Z.add_0_r in Hstop.
    cbn [build_context_loop].
    destruct (Z.gtb_spec (total + len (chunk_text i c)) max_length);
      [reflexivity | lia].
  - cbn [labelled length] in *. rewrite total_len_cons in *.
    pose proof (len_nonneg (chunk_text i c)).
    pose proof (total_len_nonneg (labelled (S i) l1)).
    change ((c :: l1) ++ tail)%list with (c :: (l1 ++ tail))%list.
    cbn [build_context_loop].
    destruct (Z.gtb_spec (total + len (chunk_text i c)) max_length);
      [lia|].
    rewrite IH.
    + rewrite <- app_assoc. f_equal. lia.
    + lia.
    + destruct tail as [|c' tail]; [exact I|].
      replace (S i + length l1)%nat with (i + S (length l1))%nat by lia.
      lia.
Qed.

(** The loop breaks at the first chunk whose labelled text does not fit
    and never looks further: the context of [l1 ++ c :: l2] is the join of
    the labelled texts of [l1] when these fit and [c] does not, whatever
    follows [c], however short. *)
Theorem build_context_stops_at_first_misfit {F} (l1 : list (Chunk F))
    (c : Chunk F) (l2 : list (Chunk F)) (max_length : Z) :
  total_len (labelled 0 l1) <= max_length ->
  total_len (labelled 0 l1) + len (chunk_text (length l1) c) > max_length ->
  _build_context (l1 ++ c :: l2)%list max_length
  = join nl (labelled 0 l1).
Proof.
  intros Hfit Hstop. unfold _build_context.
  rewrite (build_context_loop_stops max_length l1 (c :: l2) 0 [] 0);
    [reflexivity | lia | simpl; lia].
Qed.

(** The shape of every context: the join of the labelled texts of the
    first [k] chunks, whole, labelled from 1 and in order; these fit
    together under [max_length]; chunk [k], if there is one, does not fit
    with them; and the context is at most [k - 1] characters longer than
    [max_length], one for each newline of the join. *)
Theorem build_context_shape {F} (chunks : list (Chunk F))
    (max_length : Z) :
  exists k : nat,
    (k <= length chunks)%nat /\
    _build_context chunks max_length = join nl (labelled 0 (take k chunks)) /\
    (k <> 0%nat -> total_len (labelled 0 (take k chunks)) <= max_length) /\
    (forall chunk, chunks !! k = Some chunk ->
       total_len (labelled 0 (take k chunks)) + len (chunk_text k chunk)
       > max_length) /\
    (0 <= max_length ->
     len (_build_context chunks max_length)
     <= max_length + Z.max 0 (Z.of_nat k - 1)).
Proof.
  destruct (build_context_whole_chunks chunks max_length)
    as (k & Hk & Heq & Hle & Hgt).
  exists k. repeat (split; [assumption|]).
  intros Hmax. rewrite Heq, len_join, labelled_length.
  change (len nl) with 1.
  assert (length (take k chunks) = k) as -> by (rewrite length_take; lia).
  destruct k as [|k']; [simpl; lia|].
  specialize (Hle ltac:(lia)). lia.
Qed.

(** When the labelled texts of all the chunks fit together, all of them
    are in the context. *)
Theorem build_context_all_fit {F} (chunks : list (Chunk F))
    (max_length : Z) :
  total_len (labelled 0 chunks) <= max_length ->
  _build_context chunks max_length = join nl (labelled 0 chunks).
Proof.
  intros Hfit. unfold _build_context.
  rewrite <- (app_nil_r chunks) at 1.
  rewrite (build_context_loop_stops max_length chunks [] 0 [] 0);
    [reflexivity | lia | exact I].
Qed.

(** ** Confidence: the exact value lies between the scores it averages *)

Section ExactBounds.
Local Open Scope Q_scope.

End ExactBounds.

(** ** The vector cache: [remove], and [set] next to it *)

Section CacheExtras.
Context {F : Type} `{Faiss F} {CachedChunk Metadata Time : Type}.
Import VectorCache.
Local Abbreviation world := (World CachedChunk Metadata Time).
Local Abbreviation cache := (t CachedChunk Metadata Time).

Lemma remove_facts (c : cache) (document_id : string) :
  fst (remove c document_id) = is_cached c document_id /\
  is_cached (snd (remove c document_id)) document_id = false /\
  get (snd (remove c document_id)) document_id = None /\
  (forall d, d <> document_id ->
     get (snd (remove c document_id)) d = get c d) /\
  is_initialized (snd (remove c document_id)) = is_initialized c /\
  _last_refresh (snd (remove c document_id)) = _last_refresh c /\
  (is_cached c document_id = false -> snd (remove c document_id) = c).
Proof.
  unfold remove, is_cached, get, is_initialized.
  destruct (bool_decide (document_id ∈ dom (_cache c))) eqn:E;
    cbn [fst snd _cache _initialized _last_refresh].
  - split; [reflexivity|]. split.
    { apply bool_decide_eq_false. rewrite dom_delete_L.
      intros Hin. apply elem_of_difference in Hin as [_ Hin].
      apply Hin, elem_of_singleton. reflexivity. }
    split; [apply lookup_delete_eq|]. split.
    { intros d Hd. apply lookup_delete_ne. congruence. }
    repeat split. discriminate.
  - split; [reflexivity|]. split; [exact E|]. split.
    { apply bool_decide_eq_false in E. apply not_elem_of_dom. exact E. }
    repeat split.
Qed.

Lemma remove_twice (c : cache) (document_id : string) :
  remove (snd (remove c document_id)) document_id
  = (false, snd (remove c document_id)).
Proof.
  destruct (remove_facts c document_id) as (_ & Hnot & _).
  unfold remove at 1. unfold is_cached in Hnot. rewrite Hnot. reflexivity.
Qed.

(** [remove] says whether the id was cached; afterwards the id is not
    cached; every other id keeps its entry, and the flags stay; removing an
    id that is not cached changes nothing, so a second [remove] of the
    same id answers False and changes nothing. *)
Theorem remove_effect (c : cache) (document_id : string) :
  fst (remove c document_id) = is_cached c document_id /\
  is_cached (snd (remove c document_id)) document_id = false /\
  get (snd (remove c document_id)) document_id = None /\
  (forall d, d <> document_id ->
     get (snd (remove c document_id)) d = get c d) /\
  is_initialized (snd (remove c document_id)) = is_initialized c /\
  _last_refresh (snd (remove c document_id)) = _last_refresh c /\
  (is_cached c document_id = false -> snd (remove c document_id) = c) /\
  remove (snd (remove c document_id)) document_id
  = (false, snd (remove c document_id)).
Proof.
  destruct (remove_facts c document_id) as (H1 & H2 & H3 & H4 & H5 & H6 & H7).
  repeat (split; [assumption|]). apply remove_twice.
Qed.

(** Caching a document under an id that is not cached and removing it
    again gives the cache object back as it was. *)
Theorem set_then_remove (now : Time) (document_id : string) (emb : ref)
    (chs : list CachedChunk) (md : Metadata) (w w' : world)
    (arr : ndarray F) :
  heap w !! emb = Some arr ->
  is_cached (self w) document_id = false ->
  set now document_id emb chs md w = (Returned tt, w') ->
  remove (self w') document_id = (true, self w).
Proof.
  intros Hemb Hnot Hset.
  destruct (set_outcome _ _ _ _ _ _ _ Hemb _ _ Hset) as [_ [idx Hself]].
  rewrite Hself. unfold remove. cbn [_cache _initialized _last_refresh].
  rewrite bool_decide_eq_true_2 by (rewrite dom_insert_L; set_solver).
  f_equal. rewrite delete_insert_eq.
  unfold is_cached in Hnot. apply bool_decide_eq_false in Hnot.
  apply not_elem_of_dom in Hnot. rewrite delete_id by exact Hnot.
  destruct (self w); reflexivity.
Qed.

(** With a reference to no array [set] raises at once and leaves the world
    as it is.  (Python references are never dangling; this case makes the
    sequences of operations below total.) *)
Lemma set_dangling (now : Time) (document_id : string) (emb : ref)
    (chs : list CachedChunk) (md : Metadata) (w : world) :
  heap w !! emb = None ->
  set now document_id emb chs md w = (Raised (mkException "dangling" ""), w).
Proof.
  intros Hemb. unfold set, mbind, M_bind, seq. unfold deref at 1.
  rewrite Hemb. reflexivity.
Qed.

(** What [set] does to the cache object and the arrays, in every case. *)
Lemma set_cases (now : Time) (document_id : string) (emb : ref)
    (chs : list CachedChunk) (md : Metadata) (w : world) :
  forall o w', set now document_id emb chs md w = (o, w') ->
  arrays_kept w w' /\
  match o with
  | Raised _ => self w' = self w
  | Returned _ =>
      exists arr d idx,
        heap w !! emb = Some arr /\ shape arr !! 1%nat = Some d /\
        self w'
        = mkCache
            (<[document_id := mkEntry emb chs md idx now]> (_cache (self w)))
            (_initialized (self w)) (_last_refresh (self w))
  end.
Proof.
  intros o w' Hset. destruct (heap w !! emb) as [arr|] eqn:Hemb.
  - pose proof (set_outcome _ _ _ _ _ _ _ Hemb _ _ Hset) as [Hkept Hself].
    split; [exact Hkept|]. destruct o as [[]|e]; [|exact Hself].
    pose proof (proj1 (set_returns_iff _ _ _ _ _ _ _ Hemb _ _ Hset) eq_refl)
      as (idx0 & d & x' & Hd & _).
    destruct Hself as [idx Hself]. exists arr, d, idx. auto.
  - rewrite (set_dangling _ _ _ _ _ _ Hemb) in Hset.
    injection Hset as <- <-. split; [intros r a Hr; exact Hr | reflexivity].
Qed.
End CacheExtras.

(** ** The vector cache: the key order and the read-only views *)

Section ViewFacts.
Context {F : Type} `{Faiss F} {CachedChunk Value Time : Type}.
Variable str_value : string -> Value.
Variable isoformat : Time -> string.
Import VectorCache.
Local Abbreviation op := (Op CachedChunk (gmap string Value) Time).
Local Abbreviation state := (@CacheViews.State F _ CachedChunk Value Time).
Local Abbreviation wld := (World CachedChunk (gmap string Value) Time).

Lemma order_ok_start (h : gmap ref (ndarray F)) :
  CacheViews.order_ok (CacheViews.start h : state).
Proof.
  split; [constructor|]. intros k. simpl. rewrite dom_empty_L.
  split; intros Hk; [inversion Hk | set_solver].
Qed.

Lemma order_ok_perform (o : op) (s : state) :
  CacheViews.order_ok s -> CacheViews.order_ok (CacheViews.perform o s).
Proof.
  intros [Hnd Hdom]. unfold CacheViews.order_ok, CacheViews.perform.
  cbn [CacheViews.the_world CacheViews.key_order].
  destruct o as [now d e ch md|d|d|d| |now|]; cbn [perform];
    try (split; assumption).
  - destruct (set now d e ch md (CacheViews.the_world s)) as [r w'] eqn:Hset.
    pose proof (set_cases _ _ _ _ _ _ _ _ Hset) as [_ Hself].
    cbn [fst snd]. destruct r as [[]|ex].
    + destruct Hself as (arr & dd & idx & _ & _ & ->). cbn [_cache].
      unfold CacheViews.order_setitem. rewrite dom_insert_L.
      destruct (bool_decide_reflect (d ∈ CacheViews.key_order s))
        as [Hin|Hnin].
      * split; [assumption|]. intros k. rewrite Hdom.
        apply Hdom in Hin. set_solver.
      * split.
        -- apply NoDup_app. split; [assumption|]. split.
           ++ intros x Hx Hx'. apply list_elem_of_singleton in Hx'.
              congruence.
           ++ apply NoDup_singleton.
        -- intros k. rewrite elem_of_app, list_elem_of_singleton, Hdom.
           set_solver.
    + rewrite Hself. split; assumption.
  - unfold on_self, remove, is_cached. cbn [self].
    destruct (bool_decide_reflect
                (d ∈ dom (_cache (self (CacheViews.the_world s)))))
      as [Hin|Hnin]; cbn [snd _cache].
    + unfold CacheViews.order_delitem. split.
      * apply NoDup_filter. assumption.
      * intros k. rewrite list_elem_of_filter, Hdom, dom_delete_L.
        set_solver.
    + split; assumption.
  - unfold on_self, clear. cbn [self _cache]. split; [constructor|].
    intros k. rewrite dom_empty_L.
    split; intros Hk; [inversion Hk | set_solver].
Qed.

Lemma order_ok_reachable (ops : list op) :
  forall s : state,
    CacheViews.order_ok s -> CacheViews.order_ok (CacheViews.perform_all ops s).
Proof.
  unfold CacheViews.perform_all.
  induction ops as [|o ops IH]; intros s Hs; [exact Hs|].
  cbn [fold_left]. apply IH, order_ok_perform, Hs.
Qed.

Lemma document_ids_of_order (s : state) :
  CacheViews.order_ok s ->
  NoDup (CacheViews.get_all_document_ids s) /\
  (forall d,
     d ∈ CacheViews.get_all_document_ids s
     <-> is_cached (self (CacheViews.the_world s)) d = true) /\
  length (CacheViews.get_all_document_ids s)
  = size (_cache (self (CacheViews.the_world s))).
Proof.
  intros [Hnd Hdom].
  unfold CacheViews.get_all_document_ids, CacheViews.cache_keys.
  split; [exact Hnd|]. split.
  - intros d. unfold is_cached. rewrite bool_decide_eq_true. apply Hdom.
  - rewrite <- size_dom.
    assert (Hset : dom (_cache (self (CacheViews.the_world s)))
                   = list_to_set (CacheViews.key_order s)).
    { apply set_eq. intros k. rewrite elem_of_list_to_set. symmetry.
      apply Hdom. }
    rewrite Hset, size_list_to_set by exact Hnd. reflexivity.
Qed.

(** In every state that public operations lead to from a new cache,
    [get_all_document_ids] lists each cached id once and nothing else; its
    length is the number of entries. *)
Theorem get_all_document_ids_exact (h : gmap ref (ndarray F))
    (ops : list op) :
  let s := CacheViews.perform_all ops (CacheViews.start h) in
  NoDup (CacheViews.get_all_document_ids s) /\
  (forall d,
     d ∈ CacheViews.get_all_document_ids s
     <-> is_cached (self (CacheViews.the_world s)) d = true) /\
  length (CacheViews.get_all_document_ids s)
  = size (_cache (self (CacheViews.the_world s))).
Proof.
  intros s. apply document_ids_of_order.
  apply order_ok_reachable, order_ok_start.
Qed.

Lemma entries_ok_perform (o : op) (w : wld) :
  CacheViews.entries_ok w -> CacheViews.entries_ok (perform o w).
Proof.
  intros Hok. unfold CacheViews.entries_ok.
  destruct o as [now d e ch md|d|d|d| |now|]; cbn [perform];
    try exact Hok.
  - destruct (set now d e ch md w) as [r w'] eqn:Hset.
    pose proof (set_cases _ _ _ _ _ _ _ _ Hset) as [Hkept Hself].
    cbn [snd]. intros k en Hk. destruct r as [[]|ex].
    + destruct Hself as (arr & dd & idx & Harr & Hd & Hself).
      rewrite Hself in Hk. cbn [_cache] in Hk.
      apply lookup_insert_Some in Hk as [[<- <-]|[_ Hk]].
      * exists arr, dd. split; [apply Hkept; exact Harr | exact Hd].
      * destruct (Hok k en Hk) as (a & d' & Ha & Hd').
        exists a, d'. split; [apply Hkept; exact Ha | exact Hd'].
    + rewrite Hself in Hk. destruct (Hok k en Hk) as (a & d' & Ha & Hd').
      exists a, d'. split; [apply Hkept; exact Ha | exact Hd'].
  - unfold on_self, remove. cbn [self heap].
    destruct (bool_decide _); cbn [snd _cache]; [|exact Hok].
    intros k en Hk. apply lookup_delete_Some in Hk as [_ Hk]. eauto.
  - unfold on_self, clear. cbn [self _cache]. intros k en Hk.
    rewrite lookup_empty in Hk. discriminate.
Qed.

Lemma world_of_perform (o : op) (s : state) :
  CacheViews.the_world (CacheViews.perform o s)
  = perform o (CacheViews.the_world s).
Proof. reflexivity. Qed.

Lemma world_of_perform_all (ops : list op) :
  forall s : state,
    CacheViews.the_world (CacheViews.perform_all ops s)
    = perform_all ops (CacheViews.the_world s).
Proof.
  unfold CacheViews.perform_all, perform_all.
  induction ops as [|o ops IH]; intros s; [reflexivity|].
  cbn [fold_left]. rewrite IH. reflexivity.
Qed.

Lemma entries_ok_reachable (ops : list op) :
  forall w : wld,
    CacheViews.entries_ok w -> CacheViews.entries_ok (perform_all ops w).
Proof.
  unfold perform_all.
  induction ops as [|o ops IH]; intros w Hw; [exact Hw|].
  cbn [fold_left]. apply IH, entries_ok_perform, Hw.
Qed.

(** Under the invariant of the key order, the items are the keys in their
    order, each with its entry. *)
Lemma cache_items_lookup (s : state) :
  CacheViews.order_ok s ->
  length (CacheViews.cache_items s) = length (CacheViews.key_order s) /\
  forall i k, CacheViews.key_order s !! i = Some k ->
    exists e, get (self (CacheViews.the_world s)) k = Some e /\
              CacheViews.cache_items s !! i = Some (k, e).
Proof.
  intros [_ Hdom]. unfold CacheViews.cache_items, get.
  set (m := _cache (self (CacheViews.the_world s))) in *.
  assert (Hall : forall k, k ∈ CacheViews.key_order s -> is_Some (m !! k)).
  { intros k Hk. apply elem_of_dom, Hdom, Hk. }
  clear Hdom. induction (CacheViews.key_order s) as [|k0 l IH].
  - split; [reflexivity|]. intros i k Hi. discriminate.
  - destruct (Hall k0 ltac:(left)) as [e0 He0].
    destruct IH as [IHlen IHlook].
    { intros k Hk. apply Hall. right. exact Hk. }
    cbn [omap list_omap]. rewrite He0. cbn [fmap option_fmap option_map].
    split; [cbn [length]; rewrite IHlen; reflexivity|].
    intros [|i] k Hi.
    + injection Hi as <-. exists e0. split; [exact He0 | reflexivity].
    + apply (IHlook i k Hi).
Qed.

(** [get_stats] never raises in a state that public operations lead to
    from a new cache; it counts the entries, lists the cached ids, and
    gives the initialized flag. *)
Theorem get_stats_returns (h : gmap ref (ndarray F)) (ops : list op) :
  let s := CacheViews.perform_all ops (CacheViews.start h) in
  exists st,
    CacheViews.get_stats isoformat s = Returned st /\
    CacheViews.total_documents st = length (CacheViews.document_ids st) /\
    CacheViews.document_ids st = CacheViews.get_all_document_ids s /\
    CacheViews.initialized st = is_initialized (self (CacheViews.the_world s))
    /\ (forall d, d ∈ CacheViews.document_ids st
                  <-> is_cached (self (CacheViews.the_world s)) d = true).
Proof.
  intros s.
  pose proof (order_ok_reachable ops _ (order_ok_start h)) as Hord.
  fold s in Hord.
  pose proof (document_ids_of_order s Hord) as (Hnd & Hmem & Hlen).
  assert (Hent : CacheViews.entries_ok (CacheViews.the_world s)).
  { unfold s. rewrite world_of_perform_all. apply entries_ok_reachable.
    intros k e Hk. simpl in Hk. rewrite lookup_empty in Hk. discriminate. }
  assert (Hsum : exists n,
            CacheViews.sum_vectors (heap (CacheViews.the_world s))
              (CacheViews.cache_values s) = Returned n).
  { unfold CacheViews.cache_values.
    assert (Hitems : forall k e, (k, e) ∈ CacheViews.cache_items s ->
              _cache (self (CacheViews.the_world s)) !! k = Some e).
    { intros k e Hin. unfold CacheViews.cache_items in Hin.
      apply list_elem_of_omap in Hin as (k' & _ & Hk').
      destruct (_cache (self (CacheViews.the_world s)) !! k') as [e'|] eqn:E;
        [|discriminate].
      injection Hk' as <- <-. exact E. }
    induction (CacheViews.cache_items s) as [|[k e] items IH].
    - exists 0%nat. reflexivity.
    - destruct IH as [n Hn].
      { intros k' e' Hin. apply Hitems. right. exact Hin. }
      destruct (Hent k e (Hitems k e ltac:(left))) as (a & d & Ha & Hd).
      cbn [map snd CacheViews.sum_vectors]. rewrite Ha.
      destruct (shape a) as [|n0 [|n1 sh]] eqn:Hsh; try discriminate.
      cbn [lookup list_lookup]. rewrite Hn. eauto. }
  destruct Hsum as [n Hn]. unfold CacheViews.get_stats. rewrite Hn.
  eexists. split; [reflexivity|].
  cbn [CacheViews.total_documents CacheViews.document_ids
       CacheViews.initialized].
  repeat split; try (symmetry; exact Hlen); apply Hmem.
Qed.

(** [get_all_metadata] gives one dictionary for each cached id, in the
    order of the ids; the dictionary of an id holds the id under
    ["document_id"] and the time of caching under ["cached_at"], whatever
    the stored metadata had under these two keys, and the stored metadata
    under every other key. *)
Theorem get_all_metadata_entries (h : gmap ref (ndarray F))
    (ops : list op) :
  let s := CacheViews.perform_all ops (CacheViews.start h) in
  length (CacheViews.get_all_metadata str_value isoformat s)
  = length (CacheViews.get_all_document_ids s) /\
  forall i d,
    CacheViews.get_all_document_ids s !! i = Some d ->
    exists e meta,
      get (self (CacheViews.the_world s)) d = Some e /\
      CacheViews.get_all_metadata str_value isoformat s !! i = Some meta /\
      meta !! "document_id" = Some (str_value d) /\
      meta !! "cached_at" = Some (str_value (isoformat (cached_at e))) /\
      forall key, key <> "document_id" -> key <> "cached_at" ->
        meta !! key = metadata e !! key.
Proof.
  intros s.
  pose proof (order_ok_reachable ops _ (order_ok_start h)) as Hord.
  fold s in Hord.
  destruct (cache_items_lookup s Hord) as [Hlen Hlook].
  unfold CacheViews.get_all_metadata, CacheViews.get_all_document_ids,
    CacheViews.cache_keys.
  split; [rewrite length_map; exact Hlen|].
  intros i d Hi. destruct (Hlook i d Hi) as (e & He & Hitem).
  exists e. eexists. split; [exact He|].
  rewrite list_lookup_fmap, Hitem. cbn [fmap option_fmap option_map].
  split; [reflexivity|]. split.
  - rewrite lookup_insert_ne by discriminate. apply lookup_insert_eq.
  - split; [apply lookup_insert_eq|].
    intros key Hk1 Hk2.
    rewrite !lookup_insert_ne by congruence. reflexivity.
Qed.

Lemma flags_perform (o : op) (w : wld) :
  is_initialized (self (perform o w))
  = match o with
    | OpClear => false
    | OpMarkInitialized _ => true
    | _ => is_initialized (self w)
    end /\
  _last_refresh (self (perform o w))
  = match o with
    | OpClear => None
    | OpMarkInitialized now => Some now
    | _ => _last_refresh (self w)
    end.
Proof.
  destruct o as [now d e ch md|d|d|d| |now|]; cbn [perform];
    try (split; reflexivity).
  - destruct (set now d e ch md w) as [r w'] eqn:Hset.
    pose proof (set_cases _ _ _ _ _ _ _ _ Hset) as [_ Hself].
    cbn [snd]. destruct r as [[]|ex].
    + destruct Hself as (arr & dd & idx & _ & _ & ->). split; reflexivity.
    + rewrite Hself. split; reflexivity.
  - unfold on_self, remove. cbn [self].
    destruct (bool_decide _); split; reflexivity.
Qed.

(** The initialized flag is what the last [clear] or [mark_initialized]
    of the sequence made it; [set], [remove] and the reads never change
    it. *)
Theorem initialized_tracks_marks (ops : list op) (w : wld) :
  is_initialized (self (perform_all ops w))
  = CacheViews.flag_after ops (is_initialized (self w)).
Proof.
  unfold perform_all, CacheViews.flag_after. revert w.
  induction ops as [|o ops IH]; intros w; [reflexivity|].
  cbn [fold_left]. rewrite IH, (proj1 (flags_perform o w)).
  destruct o; reflexivity.
Qed.

(** In every state that public operations lead to from a new cache,
    [_last_refresh] holds a time exactly when the cache is marked
    initialized. *)
Theorem last_refresh_iff_initialized (h : gmap ref (ndarray F))
    (ops : list op) :
  let w := perform_all ops (mkWorld h __init__ : wld) in
  is_initialized (self w) = true <-> _last_refresh (self w) <> None.
Proof.
  cbv zeta. unfold perform_all.
  assert (Hstart : is_initialized (self (mkWorld h __init__ : wld)) = true
                   <-> _last_refresh (self (mkWorld h __init__ : wld))
                       <> None).
  { simpl. split; [discriminate | congruence]. }
  revert Hstart. generalize (mkWorld h __init__ : wld).
  induction ops as [|o ops IH]; intros w Hw; [exact Hw|].
  cbn [fold_left]. apply IH.
  destruct (flags_perform o w) as [-> ->].
  destruct o; try exact Hw; split; try discriminate; congruence.
Qed.
End ViewFacts.

(** ** The singleton accessor: progress *)

Section SingletonExtras.
Import Singleton.

(** No deadlock: in every state that callers of [get_vector_cache] can
    reach from a new process, as long as some caller has not returned,
    some caller can take a step. *)
Theorem get_vector_cache_no_deadlock (n : nat) (schedule : list nat) :
  let s := exec schedule (init n) in
  forall i p,
    callers s !! i = Some p -> (forall result, p <> Done result) ->
    exists j s', step j s = Some s'.
Proof.
  intros s i p Hi Hnot.
  apply (some_caller_moves s i p); [|exact Hi|exact Hnot].
  apply holder_exec; [apply inv_init | discriminate].
Qed.

(** The fast path: a call that finds the global set returns that object
    without building anything and without touching the lock, also while
    another caller holds the lock. *)
Theorem get_vector_cache_fast_path (s : State) (obj : nat) :
  _vector_cache_instance s = Some obj ->
  callers (call_alone s) = (callers s ++ [Done (Some obj)])%list /\
  constructed (call_alone s) = constructed s /\
  _cache_lock (call_alone s) = _cache_lock s /\
  _vector_cache_instance (call_alone s) = Some obj.
Proof.
  intros Hg. rewrite (call_alone_later s obj Hg). repeat split.
Qed.

(** Calls one after another: after [n + 1] calls in a new process, all of
    them have returned the first object, one object was built and the lock
    is free. *)
Theorem get_vector_cache_sequential (n : nat) :
  Nat.iter (S n) call_alone (init 0)
  = mkState (Some 0%nat) false 1 (replicate (S n) (Done (Some 0%nat))).
Proof.
  induction n as [|n IH].
  - vm_compute. reflexivity.
  - rewrite Nat.iter_succ, IH.
    rewrite (call_alone_later
               (mkState (Some 0%nat) false 1
                  (replicate (S n) (Done (Some 0%nat)))) 0%nat eq_refl).
    cbn [_cache_lock constructed callers]. f_equal.
    symmetry. apply replicate_S_end.
Qed.
End SingletonExtras.

(** ** Instances of the theorems of this part *)

Lemma generate_rag_answer_success_witness :
  exists a req,
    run (answering " AI is a field. ")
      (generate_rag_answer example_service "What is AI?"
         [mkChunk "c1" "AI is a field." 0.9%float] "doc1" 0.3%float 500)
    = (Returned a, [req]) /\
    answer a = strip " AI is a field. ".
Proof.
  destruct (generate_rag_answer_success example_service
              (mkAzureOpenAI "key" "2024-02-15-preview" "https://example")
              "What is AI?" (mkChunk "c1" "AI is a field." 0.9%float) []
              "doc1" 0.3%float 500 (answering " AI is a field. ")
              " "%char "AI is a field. " [] eq_refl (fun _ => eq_refl))
    as (a & req & Hrun & Hanswer & _).
  exists a, req. split; assumption.
Defined.

Lemma init_requires_credentials_witness :
  exists msg,
    run failing (__init__ no_environment None (Some "https://example")
                   None None)
    = (Raised (mkException "ValueError" msg), []).
Proof.
  apply (init_requires_credentials no_environment None
           (Some "https://example") None None failing).
  left. reflexivity.
Defined.

Lemma init_returns_witness :
  client example_service
  = Some (mkAzureOpenAI (api_key example_service)
            (api_version example_service) (endpoint example_service)).
Proof.
  refine (proj1 (proj2 (proj2 (proj2 (proj2
            (init_returns no_environment (Some "key")
               (Some "https://example") None None (answering "ok")
               example_service
               [mkRequest "gpt-4" [mkChatMessage "user" "Test"] 0.1%float
                  10 None None None] _)))))).
  vm_compute. reflexivity.
Defined.

Lemma init_propagates_witness :
  exists req,
    run failing (__init__ no_environment (Some "key")
                   (Some "https://example") None None)
    = (Raised (mkException "APIConnectionError" "Connection error."), [req]).
Proof.
  apply (init_propagates no_environment (Some "key")
           (Some "https://example") None None failing).
  - reflexivity.
  - reflexivity.
  - intros req. reflexivity.
Defined.

Lemma build_context_stops_at_first_misfit_witness :
  _build_context
    ([mkChunk "c1" "a" 0%float]
     ++ mkChunk "c2" "a long text" 0%float :: [mkChunk "c3" "b" 0%float])%list
    20
  = join nl (labelled 0 [mkChunk "c1" "a" 0%float]).
Proof.
  apply (build_context_stops_at_first_misfit
           [mkChunk "c1" "a" 0%float] (mkChunk "c2" "a long text" 0%float)
           [mkChunk "c3" "b" 0%float] 20).
  - vm_compute. discriminate.
  - vm_compute. reflexivity.
Defined.

Lemma build_context_all_fit_witness :
  _build_context [mkChunk "c1" "a" 0%float; mkChunk "c2" "b" 0%float] 100
  = join nl (labelled 0
               [mkChunk "c1" "a" 0%float; mkChunk "c2" "b" 0%float]).
Proof.
  apply (build_context_all_fit
           [mkChunk "c1" "a" 0%float; mkChunk "c2" "b" 0%float] 100).
  vm_compute. discriminate.
Defined.


Lemma set_then_remove_witness :
  VectorCache.remove
    (VectorCache.self
       (snd (VectorCache.set 7%nat "doc1" 0%nat ["first"; "second"] "meta"
               (example_world two_rows))))
    "doc1"
  = (true, VectorCache.self (example_world two_rows)).
Proof.
  apply (set_then_remove 7%nat "doc1" 0%nat ["first"; "second"] "meta"
           (example_world two_rows) _ two_rows).
  - reflexivity.
  - vm_compute. reflexivity.
  - apply injective_projections; [vm_compute; reflexivity | reflexivity].
Defined.

Lemma set_other_keys_witness :
  VectorCache.get
    (VectorCache.self
       (snd (VectorCache.set 7%nat "doc1" 0%nat ["first"; "second"] "meta"
               (example_world two_rows))))
    "doc2"
  = VectorCache.get (VectorCache.self (example_world two_rows)) "doc2".
Proof.
  refine (proj1 (set_other_keys 7%nat "doc1" 0%nat ["first"; "second"]
                   "meta" (example_world two_rows) two_rows _ _ "doc2"
                   _ _ _)).
  - reflexivity.
  - apply surjective_pairing.
  - discriminate.
Defined.

Lemma get_vector_cache_fast_path_witness :
  Singleton.callers
    (Singleton.call_alone
       (Singleton.mkState (Some 0%nat) true 1 [Singleton.Release]))
  = [Singleton.Release; Singleton.Done (Some 0%nat)].
Proof.
  apply (get_vector_cache_fast_path
           (Singleton.mkState (Some 0%nat) true 1 [Singleton.Release])
           0%nat).
  reflexivity.
Defined.

Lemma get_vector_cache_no_deadlock_witness :
  exists j s',
    Singleton.step j (Singleton.exec [0; 0]%nat (Singleton.init 2))
    = Some s'.
Proof.
  apply (get_vector_cache_no_deadlock 2 [0; 0]%nat 1%nat Singleton.Check).
  - reflexivity.
  - discriminate.
Defined.
